(** * Greenhouse Harvest MCP server: the authenticated request layer

    A shallow embedding of [src/auth.ts] (the OAuth2 token cache),
    [src/client.ts] (configuration, URL construction, link-header
    pagination, GET and POST) and of the tool layer of [src/index.ts]
    ([formatResult], [listEndpoint] and the bodies of the tools), together
    with properties of the request layer: the ones its specification states,
    then others that the code shows.

    Conventions.
    - A JavaScript string is a [string] holding its UTF-8 encoding.
    - A JavaScript number is [NaN] or a safe integer [Num z], with [z] at
      most [MAX_SAFE_INTEGER] in absolute value: every number the modelled
      code computes with is a status code, a time value or an identifier.
      The statements that spell a number say so.  A filter value may be any
      other number as well, known by the text [String] gives for it
      ([PDouble]).
    - An [async] function is a computation in the monad [M]: it reads and
      writes the module-level variables of the two source files, records
      every network interaction in a trace, and may throw. *)

From Stdlib Require Import String Ascii ZArith List Bool Lia DecimalString.
Import ListNotations.

Open Scope string_scope.
Open Scope Z_scope.

Set Warnings "-register-all".

(* ===================================================================== *)
(** * Part I.  The JavaScript platform                                    *)
(* ===================================================================== *)

(** ** Characters and strings *)

Definition code (c : ascii) : Z := Z.of_N (N_of_ascii c).

Definition chr (z : Z) : ascii := ascii_of_N (Z.to_N z).

Definition in_range (lo hi : Z) (c : ascii) : bool :=
  (lo <=? code c) && (code c <=? hi).

Definition is_digit (c : ascii) : bool := in_range 48 57 c.
Definition is_lower (c : ascii) : bool := in_range 97 122 c.
Definition is_upper (c : ascii) : bool := in_range 65 90 c.
Definition is_alpha (c : ascii) : bool := is_lower c || is_upper c.
Definition is_alnum (c : ascii) : bool := is_alpha c || is_digit c.

Definition to_lower (c : ascii) : ascii :=
  if is_upper c then chr (code c + 32) else c.

Fixpoint smap (f : ascii -> ascii) (s : string) : string :=
  match s with
  | EmptyString => EmptyString
  | String c s' => String (f c) (smap f s')
  end.

Fixpoint sforall (p : ascii -> bool) (s : string) : bool :=
  match s with
  | EmptyString => true
  | String c s' => p c && sforall p s'
  end.

Fixpoint sfilter (p : ascii -> bool) (s : string) : string :=
  match s with
  | EmptyString => EmptyString
  | String c s' => if p c then String c (sfilter p s') else sfilter p s'
  end.

(** [starts_with p s]: [s.startsWith(p)], returning what follows [p]. *)
Fixpoint starts_with (p s : string) : option string :=
  match p, s with
  | EmptyString, _ => Some s
  | String a p', String b s' =>
      if Ascii.eqb a b then starts_with p' s' else None
  | String _ _, EmptyString => None
  end.

(** [split_at p s] cuts [s] at the first character satisfying [p]; the
    character itself is dropped.  [None] when there is none. *)
Fixpoint split_at (p : ascii -> bool) (s : string) : option (string * string) :=
  match s with
  | EmptyString => None
  | String c s' =>
      if p c then Some (EmptyString, s')
      else match split_at p s' with
           | Some (l, r) => Some (String c l, r)
           | None => None
           end
  end.

(** [s.split(sep)] for a one-character separator. *)
Fixpoint split_on (sep : ascii) (s : string) : list string :=
  match s with
  | EmptyString => [EmptyString]
  | String c s' =>
      match split_on sep s' with
      | [] => [EmptyString]
      | piece :: rest =>
          if Ascii.eqb c sep then EmptyString :: piece :: rest
          else String c piece :: rest
      end
  end.

Fixpoint join (sep : string) (l : list string) : string :=
  match l with
  | [] => ""
  | [x] => x
  | x :: rest => x ++ sep ++ join sep rest
  end.

(** Substring test, as a proposition. *)
Definition includes (s t : string) : Prop :=
  exists pre post, s = pre ++ t ++ post.

(** ** Numbers *)

Inductive number : Type :=
| NaN
| Num (z : Z).

(** Decimal spelling of an integer. *)
Definition dec (z : Z) : string := NilZero.string_of_int (Z.to_int z).

(** [Number::toString], on [NaN] and on the safe integers, which are
    spelled in plain decimal. *)
Definition Number_toString (n : number) : string :=
  match n with
  | NaN => "NaN"
  | Num z => dec z
  end.

(** [a < b] on numbers: false as soon as one side is [NaN]. *)
Definition num_lt (a b : number) : bool :=
  match a, b with
  | Num x, Num y => x <? y
  | _, _ => false
  end.

(** [a - k] for an integer constant [k]. *)
Definition num_sub (a : number) (k : Z) : number :=
  match a with
  | NaN => NaN
  | Num x => Num (x - k)
  end.

(** ** Values

    What [JSON.parse] can produce, plus [undefined] (the value of a property
    that is not there). An object is the list of its own properties in
    creation order. *)

Inductive value : Type :=
| VUndefined
| VNull
| VBool (b : bool)
| VNum (n : number)
| VStr (s : string)
| VArr (items : list value)
| VObj (props : list (string * value)).

(** [ToBoolean]. *)
Definition truthy (v : value) : bool :=
  match v with
  | VUndefined | VNull => false
  | VBool b => b
  | VNum NaN => false
  | VNum (Num z) => negb (z =? 0)
  | VStr s => negb (s =? "")%string
  | VArr _ | VObj _ => true
  end.

Fixpoint assoc {A : Type} (k : string) (l : list (string * A)) : option A :=
  match l with
  | [] => None
  | (k', v) :: rest => if (k =? k')%string then Some v else assoc k rest
  end.

Definition has_key {A : Type} (k : string) (l : list (string * A)) : bool :=
  match assoc k l with Some _ => true | None => false end.

(** [v.name] for a property name that no prototype defines.  Reading a
    property of [null] or [undefined] throws a TypeError ([None]). *)
Definition get_prop (v : value) (name : string) : option value :=
  match v with
  | VUndefined | VNull => None
  | VObj props =>
      match assoc name props with
      | Some x => Some x
      | None => Some VUndefined
      end
  | _ => Some VUndefined
  end.

(** [ToString].  An array is joined with commas, [null] and [undefined]
    elements printing as nothing.  A plain object prints as
    [[object Object]] unless it has an own property [toString]: a decoded
    property is never callable, the conversion then finds no primitive and
    throws a TypeError ([None]). *)
Fixpoint ToString (v : value) : option string :=
  match v with
  | VUndefined => Some "undefined"
  | VNull => Some "null"
  | VBool true => Some "true"
  | VBool false => Some "false"
  | VNum n => Some (Number_toString n)
  | VStr s => Some s
  | VArr items =>
      option_map (join ",")
        ((fix elems (l : list value) : option (list string) :=
            match l with
            | [] => Some []
            | x :: rest =>
                let sx := match x with
                          | VUndefined | VNull => Some ""
                          | _ => ToString x
                          end in
                match sx, elems rest with
                | Some a, Some b => Some (a :: b)
                | _, _ => None
                end
            end) items)
  | VObj props =>
      if has_key "toString" props then None else Some "[object Object]"
  end.

(** ** Percent-encoding, UTF-8 and base64 *)

Definition DQ : string := String (chr 34) EmptyString.

Definition hex_digit (upper : bool) (n : Z) : ascii :=
  if n <? 10 then chr (48 + n)
  else chr ((if upper then 55 else 87) + n).

Definition hex_val (c : ascii) : option Z :=
  if is_digit c then Some (code c - 48)
  else if in_range 65 70 c then Some (code c - 55)
  else if in_range 97 102 c then Some (code c - 87)
  else None.

(** [%XX], upper-case. *)
Definition percent_byte (c : ascii) : string :=
  String "%" (String (hex_digit true (code c / 16))
                (String (hex_digit true (code c mod 16)) EmptyString)).

Fixpoint percent_encode (keep : ascii -> bool) (s : string) : string :=
  match s with
  | EmptyString => EmptyString
  | String c s' =>
      (if keep c then String c EmptyString else percent_byte c)
        ++ percent_encode keep s'
  end.

Fixpoint percent_decode (s : string) : string :=
  match s with
  | EmptyString => EmptyString
  | String c s' =>
      match s' with
      | String a (String b rest) =>
          match (if Ascii.eqb c "%" then hex_val a else None), hex_val b with
          | Some x, Some y => String (chr (16 * x + y)) (percent_decode rest)
          | _, _ => String c (percent_decode s')
          end
      | _ => String c (percent_decode s')
      end
  end.

(** The three bytes of U+FFFD. *)
Definition replacement : string :=
  String (chr 239) (String (chr 191) (String (chr 189) EmptyString)).

(** State of the UTF-8 decoder inside a multi-byte sequence: the bytes seen,
    how many are still needed, and the bounds of the next one. *)
Definition utf8_state : Type := (string * nat * Z * Z)%type.

(** A byte met outside a sequence: what is emitted and the next state. *)
Definition utf8_lead (b : ascii) : string * option utf8_state :=
  let c := code b in
  let one := String b EmptyString in
  if c <=? 127 then (one, None)
  else if in_range 194 223 b then (EmptyString, Some (one, 1%nat, 128, 191))
  else if in_range 224 239 b then
    (EmptyString,
     Some (one, 2%nat, (if c =? 224 then 160 else 128),
           (if c =? 237 then 159 else 191)))
  else if in_range 240 244 b then
    (EmptyString,
     Some (one, 3%nat, (if c =? 240 then 144 else 128),
           (if c =? 244 then 143 else 191)))
  else (replacement, None).

(** UTF-8 decoding with replacement, read back as UTF-8: well-formed input is
    unchanged, each ill-formed subsequence becomes U+FFFD. *)
Fixpoint utf8_decode (st : option utf8_state) (s : string) : string :=
  match s with
  | EmptyString =>
      match st with None => EmptyString | Some _ => replacement end
  | String b s' =>
      match st with
      | None =>
          let '(out, st') := utf8_lead b in out ++ utf8_decode st' s'
      | Some (buf, n, lo, hi) =>
          if in_range lo hi b then
            match n with
            | S (S n') =>
                utf8_decode
                  (Some (buf ++ String b EmptyString, S n', 128, 191)) s'
            | _ => buf ++ String b (utf8_decode None s')
            end
          else
            let '(out, st') := utf8_lead b in
            replacement ++ out ++ utf8_decode st' s'
      end
  end.

Definition base64_char (n : Z) : ascii :=
  if n <? 26 then chr (65 + n)
  else if n <? 52 then chr (71 + n)
  else if n <? 62 then chr (n - 4)
  else if n =? 62 then "+"%char
  else "/"%char.

Fixpoint base64_bytes (l : list Z) : string :=
  match l with
  | [] => EmptyString
  | [a] =>
      String (base64_char (a / 4))
        (String (base64_char (a mod 4 * 16)) "==")
  | [a; b] =>
      String (base64_char (a / 4))
        (String (base64_char (a mod 4 * 16 + b / 16))
           (String (base64_char (b mod 16 * 4)) "="))
  | a :: b :: c :: rest =>
      String (base64_char (a / 4))
        (String (base64_char (a mod 4 * 16 + b / 16))
           (String (base64_char (b mod 16 * 4 + c / 64))
              (String (base64_char (c mod 64)) (base64_bytes rest))))
  end.

(** [Buffer.from(s).toString("base64")]. *)
Definition base64 (s : string) : string :=
  base64_bytes (map code (list_ascii_of_string s)).

(** ** [JSON.stringify] *)

Definition json_escape_char (c : ascii) : string :=
  let n := code c in
  if n =? 34 then String "\" DQ
  else if n =? 92 then "\\"
  else if n =? 8 then "\b"
  else if n =? 9 then "\t"
  else if n =? 10 then "\n"
  else if n =? 12 then "\f"
  else if n =? 13 then "\r"
  else if n <? 32 then
    "\u00" ++ String (hex_digit false (n / 16))
                 (String (hex_digit false (n mod 16)) EmptyString)
  else String c EmptyString.

Fixpoint json_escape (s : string) : string :=
  match s with
  | EmptyString => EmptyString
  | String c s' => json_escape_char c ++ json_escape s'
  end.

Definition json_quote (s : string) : string := DQ ++ json_escape s ++ DQ.

(** [None] stands for the result [undefined]. *)
Fixpoint JSON_stringify (v : value) : option string :=
  match v with
  | VUndefined => None
  | VNull => Some "null"
  | VBool true => Some "true"
  | VBool false => Some "false"
  | VNum NaN => Some "null"
  | VNum (Num z) => Some (dec z)
  | VStr s => Some (json_quote s)
  | VArr items =>
      Some ("[" ++ join ","
              ((fix elems (l : list value) : list string :=
                  match l with
                  | [] => []
                  | x :: rest =>
                      match JSON_stringify x with
                      | Some t => t
                      | None => "null"
                      end :: elems rest
                  end) items) ++ "]")
  | VObj props =>
      Some ("{" ++ join ","
              ((fix members (l : list (string * value)) : list string :=
                  match l with
                  | [] => []
                  | (k, x) :: rest =>
                      match JSON_stringify x with
                      | Some t => (json_quote k ++ ":" ++ t) :: members rest
                      | None => members rest
                      end
                  end) props) ++ "}")
  end.

(** ** Dates

    [Date.parse] is specified only on the ECMAScript date-time format; on any
    other spelling an engine answers as it likes.  [iso_parse] is the
    specified part, restricted to complete timestamps that carry their UTC
    offset ([YYYY-MM-DDTHH:mm:ss], an optional [.sss], then [Z] or
    [+HH:mm] / [-HH:mm]) and name a day that exists; what the engine does
    elsewhere is the parameter [date_fallback] below. *)

Notation "'let?' x ':=' c 'in' k" :=
  (match c with Some x => k | None => None end)
  (at level 10, x pattern, c at level 100, k at level 200).

Fixpoint digits (n : nat) (acc : Z) (s : string) : option (Z * string) :=
  match n with
  | O => Some (acc, s)
  | S n' =>
      match s with
      | String c s' =>
          if is_digit c then digits n' (10 * acc + (code c - 48)) s' else None
      | EmptyString => None
      end
  end.

Definition expect (c : ascii) (s : string) : option string :=
  match s with
  | String d s' => if Ascii.eqb c d then Some s' else None
  | EmptyString => None
  end.

Definition is_leap (y : Z) : bool :=
  ((y mod 4 =? 0) && negb (y mod 100 =? 0)) || (y mod 400 =? 0).

Definition days_in_month (y m : Z) : Z :=
  if m =? 2 then (if is_leap y then 29 else 28)
  else if (m =? 4) || (m =? 6) || (m =? 9) || (m =? 11) then 30
  else 31.

(** Days from 1970-01-01 to the given civil date. *)
Definition days_from_civil (y m d : Z) : Z :=
  let y' := if m <=? 2 then y - 1 else y in
  let era := y' / 400 in
  let yoe := y' - era * 400 in
  let doy := (153 * (if 2 <? m then m - 3 else m + 9) + 2) / 5 + d - 1 in
  let doe := yoe * 365 + yoe / 4 - yoe / 100 + doy in
  era * 146097 + doe - 719468.

Definition iso_offset (s : string) : option Z :=
  match s with
  | String c rest =>
      if Ascii.eqb c "Z" then
        match rest with EmptyString => Some 0 | _ => None end
      else if Ascii.eqb c "+" || Ascii.eqb c "-" then
        let? (oh, r) := digits 2 0 rest in
        let? r := expect ":" r in
        let? (om, r) := digits 2 0 r in
        match r with
        | EmptyString =>
            if (oh <=? 23) && (om <=? 59) then
              Some ((if Ascii.eqb c "-" then -1 else 1) * (oh * 60 + om))
            else None
        | _ => None
        end
      else None
  | EmptyString => None
  end.

Definition iso_parse (s : string) : option Z :=
  let? (y, s) := digits 4 0 s in
  let? s := expect "-" s in
  let? (mo, s) := digits 2 0 s in
  let? s := expect "-" s in
  let? (d, s) := digits 2 0 s in
  let? s := expect "T" s in
  let? (h, s) := digits 2 0 s in
  let? s := expect ":" s in
  let? (mi, s) := digits 2 0 s in
  let? s := expect ":" s in
  let? (sec, s) := digits 2 0 s in
  let? (ms, s) := match s with
                  | String "." s' => digits 3 0 s'
                  | _ => Some (0, s)
                  end in
  let? off := iso_offset s in
  if (1 <=? mo) && (mo <=? 12) && (1 <=? d) && (d <=? days_in_month y mo)
     && (h <=? 23) && (mi <=? 59) && (sec <=? 59)
  then Some (days_from_civil y mo d * 86400000
             + h * 3600000 + (mi - off) * 60000 + sec * 1000 + ms)
  else None.

(** [TimeClip]. *)
Definition TimeClip (n : number) : number :=
  match n with
  | NaN => NaN
  | Num z => if Z.abs z <=? 8640000000000000 then Num z else NaN
  end.

(** ** Regular-expression white space: [\s] *)

Definition is_ascii_ws (c : ascii) : bool :=
  in_range 9 13 c || (code c =? 32).

Definition is_ws2 (c d : ascii) : bool :=
  (code c =? 194) && (code d =? 160).

Definition is_ws3 (c d e : ascii) : bool :=
  let '(x, y, z) := (code c, code d, code e) in
  ((x =? 225) && (y =? 154) && (z =? 128))
  || ((x =? 226) && (y =? 128)
      && (in_range 128 138 e || (z =? 168) || (z =? 169) || (z =? 175)))
  || ((x =? 226) && (y =? 129) && (z =? 159))
  || ((x =? 227) && (y =? 128) && (z =? 128))
  || ((x =? 239) && (y =? 187) && (z =? 191)).

(** What is left of [s] after its longest prefix matching [\s*]. *)
Fixpoint skip_ws (s : string) : string :=
  match s with
  | EmptyString => s
  | String c s1 =>
      if is_ascii_ws c then skip_ws s1
      else
        match s1 with
        | String d s2 =>
            if is_ws2 c d then skip_ws s2
            else
              match s2 with
              | String e s3 => if is_ws3 c d e then skip_ws s3 else s
              | EmptyString => s
              end
        | EmptyString => s
        end
  end.

(** ** [application/x-www-form-urlencoded] and [URLSearchParams] *)

Definition form_keep (c : ascii) : bool :=
  is_alnum c || (code c =? 42) || (code c =? 45) || (code c =? 46)
  || (code c =? 95).

Definition form_encode_char (c : ascii) : string :=
  if code c =? 32 then "+"
  else if form_keep c then String c EmptyString
  else percent_byte c.

Fixpoint form_encode (s : string) : string :=
  match s with
  | EmptyString => EmptyString
  | String c s' => form_encode_char c ++ form_encode s'
  end.

Definition urlencoded_serialize (l : list (string * string)) : string :=
  join "&" (map (fun p => form_encode (fst p) ++ "=" ++ form_encode (snd p)) l).

Definition plus_to_space (c : ascii) : ascii :=
  if Ascii.eqb c "+" then " "%char else c.

Definition form_decode (s : string) : string :=
  utf8_decode None (percent_decode (smap plus_to_space s)).

Definition urlencoded_parse (q : string) : list (string * string) :=
  flat_map
    (fun piece =>
       if (piece =? "")%string then []
       else match split_at (Ascii.eqb "=") piece with
            | Some (n, v) => [(form_decode n, form_decode v)]
            | None => [(form_decode piece, "")]
            end)
    (split_on "&" q).

Definition remove_key {A : Type} (k : string) (l : list (string * A)) :
  list (string * A) :=
  filter (fun p => negb (fst p =? k)%string) l.

(** [URLSearchParams.prototype.get]: the first value under the name, or
    [null]. *)
Definition params_get (name : string) (l : list (string * string)) :
  option string := assoc name l.

(** [URLSearchParams.prototype.set] on the list: the first pair under the
    name takes the value and the later ones go; without one, the pair is
    appended. *)
Fixpoint params_set (name v : string) (l : list (string * string)) :
  list (string * string) :=
  match l with
  | [] => [(name, v)]
  | (n, x) :: rest =>
      if (n =? name)%string then (n, v) :: remove_key name rest
      else (n, x) :: params_set name v rest
  end.

(** ** URLs

    A parsed URL keeps scheme, authority and path as one string.  For a
    literal URL, which the parser does not rewrite, it is the text of the
    input; for any other the spelling is the engine's.  Query and fragment
    are modelled: the query as the parser stores it, and the [searchParams]
    list tied to it. *)

Record URL : Type := mkURL {
  url_base : string;
  url_query : option string;
  url_fragment : option string;
  searchParams : list (string * string)
}.

Fixpoint sdrop_while (p : ascii -> bool) (s : string) : string :=
  match s with
  | EmptyString => EmptyString
  | String c s' => if p c then sdrop_while p s' else s
  end.

Definition is_c0_or_space (c : ascii) : bool := code c <=? 32.

Definition is_tab_or_newline (c : ascii) : bool :=
  (code c =? 9) || (code c =? 10) || (code c =? 13).

(** [s] without its trailing C0 controls and spaces. *)
Fixpoint rstrip (s : string) : string :=
  match s with
  | EmptyString => EmptyString
  | String c s' =>
      let r := rstrip s' in
      if is_c0_or_space c && (r =? "")%string then EmptyString
      else String c r
  end.

(** The preprocessing of the URL parser: leading and trailing C0 controls
    and spaces go, then every tab and newline. *)
Definition url_clean (s : string) : string :=
  sfilter (fun c => negb (is_tab_or_newline c))
    (rstrip (sdrop_while is_c0_or_space s)).

Definition is_scheme_char (c : ascii) : bool :=
  is_alnum c || (code c =? 43) || (code c =? 45) || (code c =? 46).

Fixpoint scheme_tail (s : string) : option (string * string) :=
  match s with
  | EmptyString => None
  | String c s' =>
      if Ascii.eqb c ":" then Some (EmptyString, s')
      else if is_scheme_char c then
        match scheme_tail s' with
        | Some (a, r) => Some (String c a, r)
        | None => None
        end
      else None
  end.

(** [scheme ":" rest]; a string that starts with no scheme has none, and
    parsing it without a base URL fails. *)
Definition split_scheme (s : string) : option (string * string) :=
  match s with
  | String c _ => if is_alpha c then scheme_tail s else None
  | EmptyString => None
  end.

Definition is_slash (c : ascii) : bool := (code c =? 47) || (code c =? 92).

(** Authority of a special-scheme URL: what follows the slashes, up to the
    next slash (query and fragment are already cut off). *)
Definition authority_of (rest : string) : string :=
  let r := sdrop_while is_slash rest in
  match split_at is_slash r with
  | Some (a, _) => a
  | None => r
  end.

(** A host made of lower-case letters in dot-separated non-empty labels:
    the host parser accepts it as it stands. *)
Definition is_plain_host (a : string) : bool :=
  forallb (fun l => negb (l =? "")%string && sforall is_lower l)
    (split_on "." a).

Definition query_keep (special : bool) (c : ascii) : bool :=
  negb ((code c <=? 32) || (126 <? code c) || (code c =? 34)
        || (code c =? 35) || (code c =? 60) || (code c =? 62)
        || (special && (code c =? 39))).

Definition fragment_keep (c : ascii) : bool :=
  negb ((code c <=? 32) || (126 <? code c) || (code c =? 34)
        || (code c =? 60) || (code c =? 62) || (code c =? 96)).

Definition is_special (scheme : string) : bool :=
  existsb (String.eqb scheme) ["http"; "https"; "ws"; "wss"; "ftp"; "file"].

(** A text that holds neither [?] nor [#]: a path that brings no query and
    no fragment of its own, or the part of a URL before its query. *)
Definition plain_path (path : string) : bool :=
  sforall (fun c => negb (Ascii.eqb "?" c || Ascii.eqb "#" c)) path.

(** Characters that the URL parser copies to the path as they are, and
    that make no dot segment: letters, digits, [-], [_] and [/]. *)
Definition is_literal_char (c : ascii) : bool :=
  is_alnum c || (code c =? 45) || (code c =? 95) || (code c =? 47).

(** [//host/path] with a plain host and a path of literal characters: the
    URL parser leaves such a text as it is. *)
Definition literal_rest (rest : string) : bool :=
  match starts_with "//" rest with
  | Some r =>
      match split_at (Ascii.eqb "/") r with
      | Some (h, p) => is_plain_host h && sforall is_literal_char p
      | None => false
      end
  | None => false
  end.

(** What the engine decides and this development does not: dates spelled
    outside [iso_parse]; whether the URL parser accepts an input that is not
    an http(s) URL with a plain host; and how it spells scheme, authority
    and path of a URL that is not a literal one (dot segments,
    percent-encoding, case), of which this development only uses that no
    [?] and no [#] is left there. *)
Record Engine : Type := mkEngine {
  date_fallback : string -> number;
  url_accepts : string -> bool;
  url_spelling : string -> string;
  url_spelling_plain : forall s, plain_path (url_spelling s) = true
}.

Section Platform.

Variable engine : Engine.

(** [Date.parse]. *)
Definition Date_parse (s : string) : number :=
  match iso_parse s with
  | Some t => TimeClip (Num t)
  | None => date_fallback engine s
  end.

(** [new Date(v).getTime()]; [None] when converting [v] to a primitive
    throws a TypeError. *)
Definition Date_getTime (v : value) : option number :=
  match v with
  | VUndefined => Some NaN
  | VNull => Some (Num 0)
  | VBool b => Some (Num (if b then 1 else 0))
  | VNum n => Some (TimeClip n)
  | VStr s => Some (Date_parse s)
  | VArr _ | VObj _ =>
      let? s := ToString v in Some (Date_parse s)
  end.

(** [new URL(s)]; [None] when it throws a TypeError. *)
Definition URL_parse (s : string) : option URL :=
  let s := url_clean s in
  let? (scheme, rest) := split_scheme s in
  let scheme' := smap to_lower scheme in
  let (rest, frag) :=
    match split_at (Ascii.eqb "#") rest with
    | Some (r, f) => (r, Some f)
    | None => (rest, None)
    end in
  let (rest, query) :=
    match split_at (Ascii.eqb "?") rest with
    | Some (r, q) => (r, Some q)
    | None => (rest, None)
    end in
  let web := ((scheme' =? "http") || (scheme' =? "https"))%string in
  let plain := web && is_plain_host (authority_of rest) in
  if plain || url_accepts engine s then
    let q := option_map (percent_encode (query_keep (is_special scheme'))) query in
    Some {| url_base := if web && literal_rest rest
                        then scheme' ++ ":" ++ rest
                        else url_spelling engine s;
            url_query := q;
            url_fragment := option_map (percent_encode fragment_keep) frag;
            searchParams := match q with
                            | Some x => urlencoded_parse x
                            | None => []
                            end |}
  else None.

(** [url.searchParams.set(name, v)]: the list changes and the query of the
    URL is rewritten from it (an empty serialization leaves no query). *)
Definition URL_set (name v : string) (u : URL) : URL :=
  let l := params_set name v (searchParams u) in
  let q := urlencoded_serialize l in
  {| url_base := url_base u;
     url_query := if (q =? "")%string then None else Some q;
     url_fragment := url_fragment u;
     searchParams := l |}.

(** [url.toString()]. *)
Definition URL_toString (u : URL) : string :=
  url_base u
  ++ match url_query u with Some q => "?" ++ q | None => "" end
  ++ match url_fragment u with Some f => "#" ++ f | None => "" end.

End Platform.

(* ===================================================================== *)
(** * Part II.  The world, and computations in it                         *)
(* ===================================================================== *)

(** What [fetch] is given. *)
Record Request : Type := mkRequest {
  req_method : string;
  req_url : string;
  req_headers : list (string * string);
  req_body : option string
}.

(** What [fetch] resolves to.  [res_link] is [res.headers.get("link")];
    [res_text] is the body as [res.text()] gives it and [res_json] what
    [res.json()] decodes it to, [None] when the body is not a JSON text. *)
Record Response : Type := mkResponse {
  res_status : Z;
  res_statusText : string;
  res_link : option string;
  res_text : string;
  res_json : option value
}.

(** [res.ok]. *)
Definition res_ok (r : Response) : bool :=
  (200 <=? res_status r) && (res_status r <=? 299).

(** Network interactions, in the order they happen. *)
Inductive Event : Type :=
| EvFetch (r : Request)
| EvText
| EvJson.

(** What is thrown: [new Error(message)] by the code itself, a TypeError or
    a SyntaxError by the platform. *)
Inductive exn : Type :=
| Error (message : string)
| TypeError
| SyntaxError.

Record ClientConfig : Type := mkConfig {
  clientId : string;
  clientSecret : string
}.

(** The module-level variables of [auth.ts] and [client.ts], the clock, the
    network (what a request is answered with, given everything that happened
    before; [None] when [fetch] rejects) and the trace of interactions. *)
Record World : Type := mkWorld {
  cachedToken : value;
  tokenExpiresAt : number;
  config : option ClientConfig;
  clock : Z;
  network : list Event -> Request -> option Response;
  trace : list Event
}.

Definition set_cachedToken (v : value) (w : World) : World :=
  mkWorld v (tokenExpiresAt w) (config w) (clock w) (network w) (trace w).

Definition set_tokenExpiresAt (n : number) (w : World) : World :=
  mkWorld (cachedToken w) n (config w) (clock w) (network w) (trace w).

Definition set_config (c : option ClientConfig) (w : World) : World :=
  mkWorld (cachedToken w) (tokenExpiresAt w) c (clock w) (network w) (trace w).

Definition log (e : Event) (w : World) : World :=
  mkWorld (cachedToken w) (tokenExpiresAt w) (config w) (clock w) (network w)
    (trace w ++ [e]).

(** The world when the two modules have just been loaded. *)
Definition start (now : Z) (net : list Event -> Request -> option Response) :
  World := mkWorld VNull (Num 0) None now net [].

Inductive outcome (A : Type) : Type :=
| Return (a : A)
| Throw (e : exn).

Arguments Return {A} a.
Arguments Throw {A} e.

Definition M (A : Type) : Type := World -> outcome A * World.

Definition ret {A : Type} (a : A) : M A := fun w => (Return a, w).

Definition throw {A : Type} (e : exn) : M A := fun w => (Throw e, w).

Definition bind {A B : Type} (c : M A) (k : A -> M B) : M B :=
  fun w =>
    match c w with
    | (Return a, w') => k a w'
    | (Throw e, w') => (Throw e, w')
    end.

Declare Scope js_scope.
Delimit Scope js_scope with js.

Notation "x <- c ;; k" := (bind c (fun x => k))
  (at level 61, c at next level, right associativity) : js_scope.

Notation "c ;;; k" := (bind c (fun _ => k))
  (at level 61, right associativity) : js_scope.

(** A platform operation that throws a TypeError when it has no result. *)
Definition orTypeError {A : Type} (o : option A) : M A :=
  match o with
  | Some a => ret a
  | None => throw TypeError
  end.

Definition read {A : Type} (f : World -> A) : M A := fun w => (Return (f w), w).

Definition write (f : World -> World) : M unit := fun w => (Return tt, f w).

(** [Date.now()]. *)
Definition Date_now : M Z := read clock.

(** [await fetch(...)]. *)
Definition fetch (r : Request) : M Response :=
  fun w =>
    match network w (trace w) r with
    | Some res => (Return res, log (EvFetch r) w)
    | None => (Throw TypeError, log (EvFetch r) w)
    end.

(** [await res.text()]. *)
Definition text (res : Response) : M string :=
  fun w => (Return (res_text res), log EvText w).

(** [await res.json()]. *)
Definition json (res : Response) : M value :=
  fun w =>
    match res_json res with
    | Some v => (Return v, log EvJson w)
    | None => (Throw SyntaxError, log EvJson w)
    end.

(** The requests of a trace. *)
Fixpoint requests (t : list Event) : list Request :=
  match t with
  | [] => []
  | EvFetch r :: t' => r :: requests t'
  | _ :: t' => requests t'
  end.

(** Whether a body was decoded as JSON in a trace. *)
Definition decodes (t : list Event) : bool :=
  existsb (fun e => match e with EvJson => true | _ => false end) t.

(** Query string of a URL given as text: what stands between the first [?]
    and the fragment. *)
Definition href_query (href : string) : option string :=
  let before := match split_at (Ascii.eqb "#") href with
                | Some (b, _) => b
                | None => href
                end in
  option_map snd (split_at (Ascii.eqb "?") before).

(* ===================================================================== *)
(** * Part III.  The program                                              *)
(* ===================================================================== *)

Open Scope js_scope.

(** ** auth.ts *)

Definition TOKEN_URL : string := "https://auth.greenhouse.io/token".

(** ** client.ts *)

Definition BASE_URL : string := "https://harvest.greenhouse.io/v3".

Definition configure (id secret : string) : M unit :=
  write (set_config (Some (mkConfig id secret))).

Definition getConfig : M ClientConfig :=
  c <- read config ;;
  match c with
  | Some cfg => ret cfg
  | None =>
      throw (Error "Greenhouse client not configured. Set GREENHOUSE_CLIENT_ID and GREENHOUSE_CLIENT_SECRET.")
  end.

(** A value of a filter bag: [string | number | boolean | undefined].
    [PNumber] holds [NaN] and the safe integers; [PDouble] is any other
    number (a fraction, a larger magnitude, an infinity), standing by the
    text that [String] gives for it. *)
Inductive param : Type :=
| PUndefined
| PString (s : string)
| PNumber (n : number)
| PBoolean (b : bool)
| PDouble (spelling : string).

(** [String(value)]. *)
Definition String_of (v : param) : string :=
  match v with
  | PUndefined => "undefined"
  | PString s => s
  | PNumber n => Number_toString n
  | PBoolean true => "true"
  | PBoolean false => "false"
  | PDouble spelling => spelling
  end.

(** [value !== undefined && value !== ""]. *)
Definition is_sent (v : param) : bool :=
  match v with
  | PUndefined => false
  | PString s => negb (s =? "")%string
  | _ => true
  end.

(** A [Record<string, ...>], as [Object.entries] lists it. *)
Definition bag : Type := list (string * param).

(** A [{data, nextCursor}]; [None] is [null]. *)
Record ApiResponse : Type := mkApiResponse {
  data : value;
  nextCursor : option string
}.

(** The pattern [/<([^>]+)>;\s*rel="next"/] tried at the start of [s]: the
    first capture group when it matches there. *)
Definition next_at (s : string) : option string :=
  let? s1 := expect "<" s in
  let? (u, s2) := split_at (Ascii.eqb ">") s1 in
  if (u =? "")%string then None
  else
    let? s3 := expect ";" s2 in
    let? _ := starts_with ("rel=" ++ DQ ++ "next" ++ DQ) (skip_ws s3) in
    Some u.

(** [header.match(...)]: the leftmost match, by its first capture group. *)
Fixpoint match_next (s : string) : option string :=
  match next_at s with
  | Some u => Some u
  | None =>
      match s with
      | String _ s' => match_next s'
      | EmptyString => None
      end
  end.

Definition parseLinkHeader (header : option string) : option string :=
  match header with
  | None => None
  | Some h => if (h =? "")%string then None else match_next h
  end.

Section Client.

Variable engine : Engine.

(** ** auth.ts, continued *)

Definition getAccessToken (id secret : string) : M value :=
  tok <- read cachedToken ;;
  expiry <- read tokenExpiresAt ;;
  now <- Date_now ;;
  if truthy tok && num_lt (Num now) (num_sub expiry 60000) then ret tok
  else
    let credentials := base64 (id ++ ":" ++ secret) in
    res <- fetch {| req_method := "POST";
                    req_url := TOKEN_URL;
                    req_headers :=
                      [("Authorization", "Basic " ++ credentials);
                       ("Content-Type", "application/x-www-form-urlencoded")];
                    req_body := Some "grant_type=client_credentials" |} ;;
    if negb (res_ok res) then
      body <- text res ;;
      throw (Error ("Failed to obtain access token: "
                    ++ dec (res_status res) ++ " " ++ res_statusText res
                    ++ " - " ++ body))
    else
      d <- json res ;;
      access_token <- orTypeError (get_prop d "access_token") ;;
      write (set_cachedToken access_token) ;;;
      expires_at <- orTypeError (get_prop d "expires_at") ;;
      t <- orTypeError (Date_getTime engine expires_at) ;;
      write (set_tokenExpiresAt t) ;;;
      read cachedToken.

(** ** client.ts, continued *)

Definition buildUrl (path : string) (params : option bag) : option string :=
  let? url := URL_parse engine (BASE_URL ++ path) in
  let url :=
    match params with
    | Some entries =>
        fold_left
          (fun u kv =>
             if is_sent (snd kv) then URL_set (fst kv) (String_of (snd kv)) u
             else u)
          entries url
    | None => url
    end in
  Some (URL_toString url).

(** Lines 81-85 of [apiGet] and 158-162 of [apiGetWithCursor], the same
    text: the cursor of the next page, from the URL of the link header. *)
Definition cursorOf (nextUrl : option string) : M (option string) :=
  match nextUrl with
  | Some u =>
      if (u =? "")%string then ret None
      else
        parsed <- orTypeError (URL_parse engine u) ;;
        ret (params_get "cursor" (searchParams parsed))
  | None => ret None
  end.

Definition apiError (res : Response) (body : string) : exn :=
  Error ("Greenhouse API error: " ++ dec (res_status res) ++ " "
         ++ res_statusText res ++ " - " ++ body).

Definition apiGet (path : string) (params : option bag) : M ApiResponse :=
  cfg <- getConfig ;;
  token <- getAccessToken (clientId cfg) (clientSecret cfg) ;;
  url <- orTypeError (buildUrl path params) ;;
  bearer <- orTypeError (ToString token) ;;
  res <- fetch {| req_method := "GET";
                  req_url := url;
                  req_headers := [("Authorization", "Bearer " ++ bearer);
                                  ("Accept", "application/json")];
                  req_body := None |} ;;
  if negb (res_ok res) then
    body <- text res ;;
    throw (apiError res body)
  else
    d <- json res ;;
    let linkHeader := res_link res in
    let nextUrl := parseLinkHeader linkHeader in
    c <- cursorOf nextUrl ;;
    ret {| data := d; nextCursor := c |}.

Definition apiPost (path : string) (body : option value) : M ApiResponse :=
  cfg <- getConfig ;;
  token <- getAccessToken (clientId cfg) (clientSecret cfg) ;;
  let url := BASE_URL ++ path in
  bearer <- orTypeError (ToString token) ;;
  res <- fetch {| req_method := "POST";
                  req_url := url;
                  req_headers := [("Authorization", "Bearer " ++ bearer);
                                  ("Content-Type", "application/json");
                                  ("Accept", "application/json")];
                  req_body := match body with
                              | Some b =>
                                  if truthy b then JSON_stringify b else None
                              | None => None
                              end |} ;;
  if negb (res_ok res) then
    t <- text res ;;
    throw (apiError res t)
  else if res_status res =? 204 then
    ret {| data := VObj []; nextCursor := None |}
  else
    d <- json res ;;
    ret {| data := d; nextCursor := None |}.

Definition apiGetWithCursor (path cursor : string) (perPage : option number) :
  M ApiResponse :=
  cfg <- getConfig ;;
  token <- getAccessToken (clientId cfg) (clientSecret cfg) ;;
  url <- orTypeError (URL_parse engine (BASE_URL ++ path)) ;;
  let url := URL_set "cursor" cursor url in
  bearer <- orTypeError (ToString token) ;;
  res <- fetch {| req_method := "GET";
                  req_url := URL_toString url;
                  req_headers := [("Authorization", "Bearer " ++ bearer);
                                  ("Accept", "application/json")];
                  req_body := None |} ;;
  if negb (res_ok res) then
    body <- text res ;;
    throw (apiError res body)
  else
    d <- json res ;;
    let linkHeader := res_link res in
    let nextUrl := parseLinkHeader linkHeader in
    c <- cursorOf nextUrl ;;
    ret {| data := d; nextCursor := c |}.

(** ** index.ts *)

Definition listEndpoint (path : string) (params : bag) (cursor : option string) :
  M ApiResponse :=
  match cursor with
  | Some c =>
      if negb (c =? "")%string then apiGetWithCursor path c None
      else apiGet path (Some params)
  | None => apiGet path (Some params)
  end.

(** The body of every list tool:
    [const { cursor, ...rest } = params; listEndpoint(path, rest, cursor)].
    The schema of the tool makes [cursor] a string when it is there. *)
Definition listTool (path : string) (params : bag) : M ApiResponse :=
  let cursor := match assoc "cursor" params with
                | Some (PString c) => Some c
                | _ => None
                end in
  let rest := remove_key "cursor" params in
  listEndpoint path rest cursor.

End Client.

(** [v.name] on an object known by its properties. *)
Definition field (name : string) (props : list (string * value)) : value :=
  match assoc name props with
  | Some x => x
  | None => VUndefined
  end.

(** ** [JSON.stringify(v, null, 2)] *)

Definition NL : string := String (chr 10) EmptyString.

(** A non-empty list of serialized parts between two brackets, one part to
    a line at the inner indentation; an empty one gives the two brackets. *)
Definition pretty_block (open close indent : string) (parts : list string) :
  string :=
  match parts with
  | [] => open ++ close
  | _ =>
      open ++ NL ++ (indent ++ "  ")
      ++ join ("," ++ NL ++ (indent ++ "  ")) parts
      ++ NL ++ indent ++ close
  end.

(** [None] stands for the result [undefined]. *)
Fixpoint JSON_pretty (indent : string) (v : value) : option string :=
  match v with
  | VUndefined => None
  | VNull => Some "null"
  | VBool true => Some "true"
  | VBool false => Some "false"
  | VNum NaN => Some "null"
  | VNum (Num z) => Some (dec z)
  | VStr s => Some (json_quote s)
  | VArr items =>
      Some (pretty_block "[" "]" indent
              ((fix elems (l : list value) : list string :=
                  match l with
                  | [] => []
                  | x :: rest =>
                      match JSON_pretty (indent ++ "  ") x with
                      | Some t => t
                      | None => "null"
                      end :: elems rest
                  end) items))
  | VObj props =>
      Some (pretty_block "{" "}" indent
              ((fix members (l : list (string * value)) : list string :=
                  match l with
                  | [] => []
                  | (k, x) :: rest =>
                      match JSON_pretty (indent ++ "  ") x with
                      | Some t => (json_quote k ++ ": " ++ t) :: members rest
                      | None => members rest
                      end
                  end) props))
  end.

(** ** index.ts, continued *)

Definition PAGINATION_NOTE : string :=
  "Pass next_cursor value as the 'cursor' parameter to fetch the next page.".

(** The object [result] that [formatResult] builds. *)
Definition resultOf (response : ApiResponse) : value :=
  VObj (("data", data response)
        :: match nextCursor response with
           | Some c =>
               if negb (c =? "")%string then
                 [("next_cursor", VStr c);
                  ("_pagination_note", VStr PAGINATION_NOTE)]
               else []
           | None => []
           end).

(** One element of [content]; [None] as text is [undefined]. *)
Record Content : Type := mkContent {
  content_type : string;
  content_text : option string
}.

(** The [content] of what [formatResult] returns. *)
Definition formatResult (response : ApiResponse) : list Content :=
  [{| content_type := "text";
      content_text := JSON_pretty "" (resultOf response) |}].

Section Tools.

Variable engine : Engine.

(** A list tool, whole. *)
Definition listHandler (path : string) (params : bag) : M (list Content) :=
  response <- listTool engine path params ;;
  ret (formatResult response).

(** [get_application], [get_candidate], [get_job]:
    [apiGet(`<prefix>${id}`)]. *)
Definition getHandler (prefix : string) (id : number) : M (list Content) :=
  response <- apiGet engine (prefix ++ Number_toString id) None ;;
  ret (formatResult response).


End Tools.

(** Number of requests in a trace extension: a computation that makes at
    most [n] of them. *)
Definition calls {A : Type} (n : nat) (c : M A) : Prop :=
  forall w, exists new,
    trace (snd (c w)) = (trace w ++ new)%list
    /\ (List.length (requests new) <= n)%nat.

(** [Number.MAX_SAFE_INTEGER]: up to it, in absolute value, [Num z] is the
    number [z] and [dec z] its spelling. *)
Definition MAX_SAFE_INTEGER : Z := 9007199254740991.

(** Characters below 128. *)
Definition is_ascii (c : ascii) : bool := code c <? 128.

(** The numbers of a bag that [PNumber] holds are safe integers. *)
Definition safe_param (v : param) : bool :=
  match v with
  | PNumber (Num z) => Z.abs z <=? MAX_SAFE_INTEGER
  | _ => true
  end.

Definition safe_bag (b : bag) : bool :=
  forallb (fun kv => safe_param (snd kv)) b.

(** ** Requests, as the three functions build them *)

Definition tokenRequest (id secret : string) : Request :=
  {| req_method := "POST";
     req_url := TOKEN_URL;
     req_headers :=
       [("Authorization", "Basic " ++ base64 (id ++ ":" ++ secret));
        ("Content-Type", "application/x-www-form-urlencoded")];
     req_body := Some "grant_type=client_credentials" |}.

Definition getRequest (url bearer : string) : Request :=
  {| req_method := "GET";
     req_url := url;
     req_headers := [("Authorization", "Bearer " ++ bearer);
                     ("Accept", "application/json")];
     req_body := None |}.

Definition postRequest (url bearer : string) (body : option string) : Request :=
  {| req_method := "POST";
     req_url := url;
     req_headers := [("Authorization", "Bearer " ++ bearer);
                     ("Content-Type", "application/json");
                     ("Accept", "application/json")];
     req_body := body |}.

(** ** The words of the specification *)

(** "A cached token exists and the current time is more than 60 seconds
    before its recorded expiry". *)
Definition usable (w : World) : Prop :=
  truthy (cachedToken w) = true /\
  exists e, tokenExpiresAt w = Num e /\ clock w + 60000 < e.

(** The entries of a bag that are sent, stringified. *)
Definition sent (b : bag) : list (string * string) :=
  map (fun kv => (fst kv, String_of (snd kv)))
    (filter (fun kv => is_sent (snd kv)) b).

(** Every request a computation adds to the trace satisfies [P]. *)
Definition emits {A : Type} (P : Request -> Prop) (c : M A) : Prop :=
  forall w, exists new,
    trace (snd (c w)) = (trace w ++ new)%list /\ Forall P (requests new).

(** ** An engine and worlds to run the program in *)

(** An engine that knows no date format, accepts no URL beyond the ones
    this development decides itself, and so has none to spell. *)
Definition strict_engine : Engine :=
  {| date_fallback := fun _ => NaN;
     url_accepts := fun _ => false;
     url_spelling := fun _ => "";
     url_spelling_plain := fun _ => eq_refl |}.

Definition json_response (link : option string) (v : value) : Response :=
  {| res_status := 200; res_statusText := "OK"; res_link := link;
     res_text := ""; res_json := Some v |}.

(** A world configured with credentials, holding the given cache. *)
Definition world_with (tok : value) (expiry : number) (now : Z)
  (net : list Event -> Request -> option Response) : World :=
  mkWorld tok expiry (Some (mkConfig "id" "secret")) now net [].

(** ** Auxiliary readings of the program *)

(** The path as the URL parser keeps it. *)
Definition kept_path (path : string) : string :=
  sfilter (fun c => negb (is_tab_or_newline c)) (rstrip path).

(** The URL of a resource, before any parameter is set. *)
Definition resource (engine : Engine) (path : string) : URL :=
  {| url_base := if sforall is_literal_char (kept_path path)
                 then BASE_URL ++ kept_path path
                 else url_spelling engine (BASE_URL ++ kept_path path);
     url_query := None; url_fragment := None; searchParams := [] |}.

(** [v.name], [undefined] where the property is not there. *)
Definition prop (v : value) (name : string) : value :=
  match get_prop v name with
  | Some x => x
  | None => VUndefined
  end.


(** One turn of the loop of [buildUrl]. *)
Definition add_entry (u : URL) (kv : string * param) : URL :=
  if is_sent (snd kv) then URL_set (fst kv) (String_of (snd kv)) u else u.

(** The body [apiPost] sends: [body ? JSON.stringify(body) : undefined]. *)
Definition postBody (body : option value) : option string :=
  match body with
  | Some b => if truthy b then JSON_stringify b else None
  | None => None
  end.

(** The text [rel="next"]. *)
Definition REL_NEXT : string := "rel=" ++ DQ ++ "next" ++ DQ.

(** Characters that have a meaning of their own in a URL after the path. *)
Definition is_delimiter (c : ascii) : bool :=
  Ascii.eqb "#" c || Ascii.eqb "&" c || Ascii.eqb "=" c || Ascii.eqb "?" c.

(** The token exchange of [getAccessToken], outcome by outcome. *)
Definition exchanged (engine : Engine) (id secret : string) (w : World) :
  outcome value * World :=
  let w1 := log (EvFetch (tokenRequest id secret)) w in
  match network w (trace w) (tokenRequest id secret) with
  | None => (Throw TypeError, w1)
  | Some res =>
      if res_ok res then
        let w2 := log EvJson w1 in
        match res_json res with
        | None => (Throw SyntaxError, w2)
        | Some d =>
            match get_prop d "access_token" with
            | None => (Throw TypeError, w2)
            | Some a =>
                let w3 := set_cachedToken a w2 in
                match get_prop d "expires_at" with
                | None => (Throw TypeError, w3)
                | Some ea =>
                    match Date_getTime engine ea with
                    | None => (Throw TypeError, w3)
                    | Some t => (Return a, set_tokenExpiresAt t w3)
                    end
                end
            end
        end
      else
        (Throw (Error ("Failed to obtain access token: "
                        ++ dec (res_status res) ++ " " ++ res_statusText res
                        ++ " - " ++ res_text res)),
         log EvText w1)
  end.

(** What [apiGet] and [apiGetWithCursor] do with the response, once [fetch]
    has resolved (lines 71-87 and 149-164, the same text). *)
Definition received (engine : Engine) (res : Response) : M ApiResponse :=
  if negb (res_ok res) then
    body <- text res ;;
    throw (apiError res body)
  else
    d <- json res ;;
    c <- cursorOf engine (parseLinkHeader (res_link res)) ;;
    ret {| data := d; nextCursor := c |}.

(** The query string that goes with a list of search parameters. *)
Definition query_of (l : list (string * string)) : option string :=
  match l with
  | [] => None
  | _ => Some (urlencoded_serialize l)
  end.

(** A URL whose query is the one of its search parameters. *)
Definition tied (u : URL) : Prop := url_query u = query_of (searchParams u).

(** A network that answers every request alike. *)
Definition always (res : Response) : list Event -> Request -> option Response :=
  fun _ _ => Some res.

(** A network that answers the token endpoint with one response and every
    other address with another. *)
Definition serve (token api : Response) :
  list Event -> Request -> option Response :=
  fun _ r => if (req_url r =? TOKEN_URL)%string then Some token else Some api.

Definition token_body (access_token expires_at : string) : value :=
  VObj [("token_type", VStr "Bearer");
        ("access_token", VStr access_token);
        ("expires_at", VStr expires_at)].

(** A cache filled at time 0 with a token good until 100 s. *)
Definition cached_world (now : Z)
  (net : list Event -> Request -> option Response) : World :=
  world_with (VStr "tok") (Num 100000) now net.

(** The token endpoint answering with a complete body. *)
Definition good_token : Response :=
  json_response None (token_body "fresh" "2030-01-01T00:00:00.000Z").

(** The token endpoint answering with a body that lacks [expires_at]. *)
Definition short_token : Response :=
  json_response None (VObj [("access_token", VStr "abc")]).

(** A failure of the resource API. *)
Definition not_found : Response :=
  {| res_status := 404; res_statusText := "Not Found"; res_link := None;
     res_text := "not found"; res_json := None |}.

(** The token endpoint refusing the credentials. *)
Definition unauthorized : Response :=
  {| res_status := 401; res_statusText := "Unauthorized"; res_link := None;
     res_text := "denied"; res_json := None |}.

(** A write answered without content. *)
Definition no_content : Response :=
  {| res_status := 204; res_statusText := "No Content"; res_link := None;
     res_text := ""; res_json := None |}.

(** A page of jobs with a link to the next one. *)
Definition page_with_next : Response :=
  json_response
    (Some ("<https://host/v3/jobs?cursor=abc123>; rel=" ++ DQ ++ "next" ++ DQ))
    (VArr [VObj [("id", VNum (Num 1))]]).

(** A page of jobs whose next link carries a page number and no cursor. *)
Definition page_without_cursor : Response :=
  json_response
    (Some ("<https://host/v3/jobs?page=2>; rel=" ++ DQ ++ "next" ++ DQ))
    (VArr []).


(** The token endpoint answering with an expiry that has no primitive
    value: [{"access_token":"abc","expires_at":{"toString":1}}]. *)
Definition hostile_token : Response :=
  json_response None
    (VObj [("access_token", VStr "abc");
           ("expires_at", VObj [("toString", VNum (Num 1))])]).

(** The bag of the filter-omission example. *)
Definition example_bag : bag :=
  [("a", PUndefined); ("b", PString ""); ("c", PString "x");
   ("d", PNumber (Num 5)); ("e", PBoolean false)].

(* ===================================================================== *)
(** * Part IV.  Properties                                                *)
(* ===================================================================== *)

(** ** Strings *)

Lemma sforall_app p a b : sforall p (a ++ b) = sforall p a && sforall p b.
Proof.
  induction a as [|c a IH]; simpl; [reflexivity|].
  rewrite IH, andb_assoc. reflexivity.
Qed.

Lemma sforall_sfilter p q s :
  sforall p s = true -> sforall p (sfilter q s) = true.
Proof.
  induction s as [|c s IH]; simpl; [reflexivity|]. intros H.
  apply andb_true_iff in H. destruct H as [H1 H2].
  destruct (q c); simpl; [rewrite H1|]; auto.
Qed.

Lemma sforall_rstrip p s : sforall p s = true -> sforall p (rstrip s) = true.
Proof.
  induction s as [|c s IH]; simpl; [reflexivity|]. intros H.
  apply andb_true_iff in H. destruct H as [H1 H2].
  destruct (is_c0_or_space c && (rstrip s =? "")%string); simpl;
    [reflexivity|].
  rewrite H1. auto.
Qed.

Lemma sforall_weaken (p q : ascii -> bool) s :
  (forall c, p c = true -> q c = true) ->
  sforall p s = true -> sforall q s = true.
Proof.
  intros Hpq. induction s as [|c s IH]; simpl; [reflexivity|]. intros H.
  apply andb_true_iff in H. destruct H as [H1 H2].
  rewrite (Hpq c H1). auto.
Qed.

Lemma split_at_none p s :
  sforall (fun c => negb (p c)) s = true -> split_at p s = None.
Proof.
  induction s as [|c s IH]; simpl; [reflexivity|]. intros H.
  apply andb_true_iff in H. destruct H as [H1 H2].
  apply negb_true_iff in H1. rewrite H1, IH by assumption. reflexivity.
Qed.

Lemma split_at_app p a c b :
  sforall (fun x => negb (p x)) a = true -> p c = true ->
  split_at p (a ++ String c b) = Some (a, b).
Proof.
  intros Ha Hc. induction a as [|x a IH]; simpl.
  - rewrite Hc. reflexivity.
  - simpl in Ha. apply andb_true_iff in Ha. destruct Ha as [H1 H2].
    apply negb_true_iff in H1. rewrite H1, IH by assumption. reflexivity.
Qed.

Lemma split_at_prefix p a s :
  sforall (fun x => negb (p x)) a = true ->
  split_at p (a ++ s)
  = match split_at p s with
    | Some (l, r) => Some (a ++ l, r)
    | None => None
    end.
Proof.
  intros Ha. induction a as [|x a IH]; simpl.
  - destruct (split_at p s) as [[l r]|]; reflexivity.
  - simpl in Ha. apply andb_true_iff in Ha. destruct Ha as [H1 H2].
    apply negb_true_iff in H1. rewrite H1, IH by assumption.
    destruct (split_at p s) as [[l r]|]; reflexivity.
Qed.

Lemma split_at_spec p s l r :
  split_at p s = Some (l, r) ->
  exists c, s = l ++ String c r /\ p c = true
            /\ sforall (fun x => negb (p x)) l = true.
Proof.
  revert l r. induction s as [|x s IH]; simpl; intros l r H; [discriminate|].
  destruct (p x) eqn:Hp.
  - injection H as <- <-. exists x. auto.
  - destruct (split_at p s) as [[l' r']|]; [|discriminate].
    injection H as <- <-. destruct (IH l' r' eq_refl) as [c [E [Hc Hl]]].
    exists c. simpl. rewrite Hp, Hl, <- E. auto.
Qed.

Lemma expect_spec c s r : expect c s = Some r -> s = String c r.
Proof.
  destruct s as [|d s]; simpl; [discriminate|].
  destruct (Ascii.eqb c d) eqn:E; [|discriminate].
  apply Ascii.eqb_eq in E. intros [= <-]. congruence.
Qed.

Lemma starts_with_spec p : forall s r, starts_with p s = Some r -> s = p ++ r.
Proof.
  induction p as [|a p IH]; simpl; intros s r H.
  - congruence.
  - destruct s as [|b s]; [discriminate|].
    destruct (Ascii.eqb a b) eqn:E; [|discriminate].
    apply Ascii.eqb_eq in E. subst b. rewrite (IH _ _ H). reflexivity.
Qed.

Lemma starts_with_app p r : starts_with p (p ++ r) = Some r.
Proof.
  induction p as [|a p IH]; simpl; [reflexivity|].
  rewrite Ascii.eqb_refl. exact IH.
Qed.

Lemma append_assoc (a b c : string) : (a ++ b) ++ c = a ++ b ++ c.
Proof. induction a as [|x a IH]; simpl; [|rewrite IH]; reflexivity. Qed.

Lemma append_nil_r (a : string) : a ++ "" = a.
Proof. induction a as [|x a IH]; simpl; [|rewrite IH]; reflexivity. Qed.

Lemma includes_mid (a t b : string) : includes (a ++ t ++ b) t.
Proof. exists a, b. reflexivity. Qed.

Lemma includes_app_r (a s t : string) : includes s t -> includes (a ++ s) t.
Proof.
  intros [pre [post E]]. exists (a ++ pre), post.
  rewrite E, append_assoc. reflexivity.
Qed.


(** ** Dates *)

Lemma is_digit_bound c : is_digit c = true -> 0 <= code c - 48 <= 9.
Proof.
  unfold is_digit, in_range. intros H. apply andb_true_iff in H.
  destruct H as [H1 H2]. apply Z.leb_le in H1, H2. lia.
Qed.

Lemma digits_bound n : forall acc s v r,
  digits n acc s = Some (v, r) ->
  0 <= acc ->
  acc * 10 ^ Z.of_nat n <= v < (acc + 1) * 10 ^ Z.of_nat n.
Proof.
  induction n as [|n IH]; intros acc s v r H Hacc.
  - simpl in H. inversion H; subst. change (Z.of_nat 0) with 0.
    rewrite Z.pow_0_r. lia.
  - cbn [digits] in H. destruct s as [|c s']; [discriminate|].
    destruct (is_digit c) eqn:Hd; [|discriminate].
    apply is_digit_bound in Hd.
    pose proof (IH _ _ _ _ H ltac:(lia)) as H'.
    rewrite Nat2Z.inj_succ, Z.pow_succ_r by lia. nia.
Qed.

Lemma digits2 s v r : digits 2 0 s = Some (v, r) -> 0 <= v <= 99.
Proof. intros H. apply digits_bound in H; [|lia]. simpl in H. lia. Qed.

Lemma digits3 s v r : digits 3 0 s = Some (v, r) -> 0 <= v <= 999.
Proof. intros H. apply digits_bound in H; [|lia]. simpl in H. lia. Qed.

Lemma digits4 s v r : digits 4 0 s = Some (v, r) -> 0 <= v <= 9999.
Proof. intros H. apply digits_bound in H; [|lia]. simpl in H. lia. Qed.

Lemma iso_offset_bound s off : iso_offset s = Some off -> -1439 <= off <= 1439.
Proof.
  unfold iso_offset. destruct s as [|c rest]; [discriminate|].
  destruct (Ascii.eqb c "Z").
  - destruct rest; [|discriminate]. intros [= <-]. lia.
  - destruct (Ascii.eqb c "+" || Ascii.eqb c "-"); [|discriminate].
    destruct (digits 2 0 rest) as [[oh r]|] eqn:H1; [|discriminate].
    destruct (expect ":" r) as [r1|]; [|discriminate].
    destruct (digits 2 0 r1) as [[om r2]|] eqn:H2; [|discriminate].
    destruct r2; [|discriminate].
    destruct ((oh <=? 23) && (om <=? 59)) eqn:Hb; [|discriminate].
    apply andb_true_iff in Hb. destruct Hb as [Hb1 Hb2].
    apply Z.leb_le in Hb1, Hb2. apply digits2 in H1, H2.
    intros [= <-]. destruct (Ascii.eqb c "-"); lia.
Qed.

Lemma days_in_month_le y m : days_in_month y m <= 31.
Proof.
  unfold days_in_month.
  destruct (m =? 2); [destruct (is_leap y); lia|].
  destruct ((m =? 4) || (m =? 6) || (m =? 9) || (m =? 11)); lia.
Qed.

Lemma days_from_civil_bound y m d :
  0 <= y <= 9999 -> 1 <= m <= 12 -> 1 <= d <= 31 ->
  -719530 <= days_from_civil y m d <= 2932900.
Proof.
  intros Hy Hm Hd. unfold days_from_civil.
  destruct (m <=? 2) eqn:E1; destruct (2 <? m) eqn:E2;
    try apply Z.leb_le in E1; try apply Z.leb_gt in E1;
    try apply Z.ltb_lt in E2; try apply Z.ltb_ge in E2;
    cbv zeta; Z.div_mod_to_equations; lia.
Qed.

Lemma iso_parse_in_range s t :
  iso_parse s = Some t -> Z.abs t <= 8640000000000000.
Proof.
  unfold iso_parse. intros H.
  destruct (digits 4 0 s) as [[y s1]|] eqn:Hy; [|discriminate].
  destruct (expect "-" s1) as [s2|]; [|discriminate].
  destruct (digits 2 0 s2) as [[mo s3]|] eqn:Hmo; [|discriminate].
  destruct (expect "-" s3) as [s4|]; [|discriminate].
  destruct (digits 2 0 s4) as [[d s5]|] eqn:Hd; [|discriminate].
  destruct (expect "T" s5) as [s6|]; [|discriminate].
  destruct (digits 2 0 s6) as [[h s7]|] eqn:Hh; [|discriminate].
  destruct (expect ":" s7) as [s8|]; [|discriminate].
  destruct (digits 2 0 s8) as [[mi s9]|] eqn:Hmi; [|discriminate].
  destruct (expect ":" s9) as [s10|]; [|discriminate].
  destruct (digits 2 0 s10) as [[sec s11]|] eqn:Hsec; [|discriminate].
  match type of H with
  | match ?X with _ => _ end = _ =>
      destruct X as [[ms s12]|] eqn:Hms; [|discriminate]
  end.
  destruct (iso_offset s12) as [off|] eqn:Hoff; [|discriminate].
  match type of H with
  | (if ?B then _ else _) = _ => destruct B eqn:Hb; [|discriminate]
  end.
  injection H as <-.
  repeat (apply andb_true_iff in Hb; destruct Hb as [Hb ?]).
  repeat match goal with
         | H : (_ <=? _) = true |- _ => apply Z.leb_le in H
         end.
  apply digits4 in Hy. apply digits2 in Hmo, Hd, Hh, Hmi, Hsec.
  apply iso_offset_bound in Hoff.
  assert (0 <= ms <= 999).
  { destruct s11 as [|c s11']; [injection Hms as <- _; lia|].
    destruct c as [[] [] [] [] [] [] [] []];
      first [ apply digits3 in Hms; exact Hms | injection Hms as <- _; lia ]. }
  pose proof (days_in_month_le y mo).
  pose proof (days_from_civil_bound y mo d ltac:(lia) ltac:(lia) ltac:(lia)).
  lia.
Qed.

(** ** Query strings *)

Lemma form_encode_char_safe c :
  sforall (fun x => negb (is_delimiter x)) (form_encode_char c) = true.
Proof. destruct c as [[] [] [] [] [] [] [] []]; reflexivity. Qed.

Lemma form_encode_safe s :
  sforall (fun x => negb (is_delimiter x)) (form_encode s) = true.
Proof.
  induction s as [|c s IH]; simpl; [reflexivity|].
  rewrite sforall_app, form_encode_char_safe, IH. reflexivity.
Qed.

Lemma form_encode_no (p : ascii -> bool) s :
  (forall c, p c = true -> is_delimiter c = true) ->
  sforall (fun x => negb (p x)) (form_encode s) = true.
Proof.
  intros Hp. apply sforall_weaken with (2 := form_encode_safe s).
  intros c H. apply negb_true_iff in H. apply negb_true_iff.
  destruct (p c) eqn:E; [|reflexivity]. rewrite (Hp c E) in H. discriminate.
Qed.

Lemma hash_is_delimiter c : Ascii.eqb "#" c = true -> is_delimiter c = true.
Proof. unfold is_delimiter. intros ->. reflexivity. Qed.

Lemma join_cons sep x y l :
  join sep (x :: y :: l) = x ++ sep ++ join sep (y :: l).
Proof. reflexivity. Qed.

Lemma serialize_no_hash l :
  sforall (fun x => negb (Ascii.eqb "#" x)) (urlencoded_serialize l) = true.
Proof.
  unfold urlencoded_serialize.
  induction l as [|[k v] l IH]; [reflexivity|].
  assert (H : sforall (fun x => negb (Ascii.eqb "#" x))
                (form_encode k ++ "=" ++ form_encode v) = true).
  { rewrite !sforall_app, !form_encode_no by apply hash_is_delimiter.
    reflexivity. }
  cbn [map fst snd] in *. destruct l as [|p l]; [exact H|].
  cbn [map] in *. rewrite join_cons, sforall_app, H. simpl. exact IH.
Qed.

Lemma join_nonempty sep x l : x <> "" -> join sep (x :: l) <> "".
Proof.
  intros Hx. destruct x as [|c x]; [congruence|].
  destruct l; simpl; discriminate.
Qed.

Lemma serialize_nonempty l : l <> [] -> urlencoded_serialize l <> "".
Proof.
  destruct l as [|[k v] l]; [congruence|]. intros _.
  unfold urlencoded_serialize. simpl map. apply join_nonempty.
  simpl. destruct (form_encode k); discriminate.
Qed.

Lemma plain_no_hash s :
  plain_path s = true -> sforall (fun x => negb (Ascii.eqb "#" x)) s = true.
Proof.
  apply sforall_weaken. intros c Hc.
  apply negb_true_iff in Hc. apply orb_false_iff in Hc.
  apply negb_true_iff. tauto.
Qed.

Lemma plain_no_question s :
  plain_path s = true -> sforall (fun x => negb (Ascii.eqb "?" x)) s = true.
Proof.
  apply sforall_weaken. intros c Hc.
  apply negb_true_iff in Hc. apply orb_false_iff in Hc.
  apply negb_true_iff. tauto.
Qed.

Lemma href_query_none base :
  plain_path base = true -> href_query base = None.
Proof.
  intros H. unfold href_query.
  rewrite (split_at_none (Ascii.eqb "#") base (plain_no_hash base H)).
  rewrite (split_at_none (Ascii.eqb "?") base (plain_no_question base H)).
  reflexivity.
Qed.

Lemma href_query_some base q :
  plain_path base = true ->
  sforall (fun x => negb (Ascii.eqb "#" x)) q = true ->
  href_query (base ++ "?" ++ q) = Some q.
Proof.
  intros Hb Hq. unfold href_query.
  rewrite (split_at_none (Ascii.eqb "#") (base ++ "?" ++ q)).
  - change ("?" ++ q) with (String "?" q).
    rewrite split_at_app; [reflexivity| |reflexivity].
    apply plain_no_question, Hb.
  - rewrite sforall_app, (plain_no_hash base Hb). simpl. exact Hq.
Qed.

(** ** Search parameters *)

Lemma params_set_fresh k v l :
  has_key k l = false -> params_set k v l = (l ++ [(k, v)])%list.
Proof.
  unfold has_key. induction l as [|[n x] l IH]; simpl; [reflexivity|].
  rewrite String.eqb_sym.
  destruct (n =? k)%string; [discriminate|].
  intros H. rewrite IH by exact H. reflexivity.
Qed.

Lemma has_key_app {A : Type} k (l1 l2 : list (string * A)) :
  has_key k (l1 ++ l2) = has_key k l1 || has_key k l2.
Proof.
  unfold has_key. induction l1 as [|[n x] l1 IH]; simpl; [reflexivity|].
  destruct (k =? n)%string; [reflexivity|]. exact IH.
Qed.

Lemma has_key_In {A : Type} k (l : list (string * A)) :
  has_key k l = true -> In k (map fst l).
Proof.
  unfold has_key. induction l as [|[n x] l IH]; simpl; [discriminate|].
  destruct (k =? n)%string eqn:E; [|auto].
  intros _. left. symmetry. apply String.eqb_eq, E.
Qed.

Lemma has_key_remove {A : Type} k (l : list (string * A)) :
  has_key k (remove_key k l) = false.
Proof.
  unfold has_key, remove_key. induction l as [|[n x] l IH]; [reflexivity|].
  simpl. destruct (n =? k)%string eqn:E; simpl; [exact IH|].
  rewrite String.eqb_sym, E. exact IH.
Qed.

Lemma has_key_params_set k n v l :
  has_key k (params_set n v l) = true -> k = n \/ has_key k l = true.
Proof.
  unfold has_key. induction l as [|[m x] l IH]; simpl.
  - destruct (k =? n)%string eqn:E; [|discriminate].
    left. apply String.eqb_eq, E.
  - destruct (m =? n)%string eqn:E; simpl.
    + destruct (k =? m)%string; [auto|]. intros H. right.
      clear -H. induction l as [|[a b] l IH]; [discriminate|].
      simpl in *. destruct (negb (a =? n)%string); simpl in H.
      * destruct (k =? a)%string; auto.
      * destruct (k =? a)%string; auto.
    + destruct (k =? m)%string; auto.
Qed.

Lemma URL_set_query k v u :
  url_query (URL_set k v u)
  = Some (urlencoded_serialize (params_set k v (searchParams u))).
Proof.
  unfold URL_set. simpl.
  destruct (urlencoded_serialize (params_set k v (searchParams u)) =? "")%string
    eqn:E; [|reflexivity].
  apply String.eqb_eq in E. exfalso. revert E. apply serialize_nonempty.
  destruct (searchParams u) as [|[n x] l]; simpl; [discriminate|].
  destruct (n =? k)%string; discriminate.
Qed.

Lemma sent_cons kv b :
  sent (kv :: b)
  = if is_sent (snd kv) then (fst kv, String_of (snd kv)) :: sent b
    else sent b.
Proof. unfold sent. simpl. destruct (is_sent (snd kv)); reflexivity. Qed.

Lemma In_sent k v b :
  In (k, v) b -> is_sent v = true -> In (k, String_of v) (sent b).
Proof.
  intros Hin Hs. unfold sent.
  apply (in_map (fun kv => (fst kv, String_of (snd kv))) _ (k, v)).
  apply filter_In. auto.
Qed.

(** The loop of [buildUrl] on a bag with distinct keys, none of them already
    in the URL: the entries that are sent are appended in order, and the
    query is rewritten as soon as there is one. *)
Lemma fold_entries (b : bag) : forall u,
  NoDup (map fst b) ->
  (forall k, has_key k (searchParams u) = true -> has_key k b = false) ->
  let u' := fold_left add_entry b u in
  searchParams u' = (searchParams u ++ sent b)%list
  /\ url_base u' = url_base u /\ url_fragment u' = url_fragment u
  /\ (sent b <> [] ->
      url_query u' = Some (urlencoded_serialize (searchParams u ++ sent b)))
  /\ (sent b = [] -> u' = u).
Proof.
  induction b as [|[k v] b IH]; intros u Hnd Hdis.
  - cbv zeta. change (sent []) with (@nil (string * string)).
    simpl fold_left. rewrite app_nil_r.
    split; [reflexivity|]. split; [reflexivity|]. split; [reflexivity|].
    split; [intros H; exfalso; apply H; reflexivity|reflexivity].
  - simpl fold_left. inversion Hnd as [|? ? Hk Hnd']; subst.
    assert (Hkb : has_key k b = false).
    { destruct (has_key k b) eqn:E; [|reflexivity].
      exfalso. apply Hk, has_key_In, E. }
    assert (Hku : has_key k (searchParams u) = false).
    { destruct (has_key k (searchParams u)) eqn:E; [|reflexivity].
      apply Hdis in E. unfold has_key in E. simpl in E.
      rewrite String.eqb_refl in E. discriminate. }
    rewrite sent_cons. unfold add_entry at 2. simpl fst; simpl snd.
    destruct (is_sent v) eqn:Hs.
    + specialize (IH (URL_set k (String_of v) u) Hnd').
      assert (Hsp : searchParams (URL_set k (String_of v) u)
                    = (searchParams u ++ [(k, String_of v)])%list).
      { unfold URL_set. simpl. apply params_set_fresh, Hku. }
      destruct IH as (I1 & I2 & I3 & I4 & I5).
      { intros k' H'. rewrite Hsp, has_key_app in H'.
        apply orb_true_iff in H'. destruct H' as [H'|H'].
        - apply Hdis in H'. unfold has_key in *. simpl in H'.
          destruct (k' =? k)%string; [discriminate|exact H'].
        - unfold has_key in H'. simpl in H'.
          destruct (k' =? k)%string eqn:E; [|discriminate].
          apply String.eqb_eq in E. subst. exact Hkb. }
      cbv zeta. rewrite I1, I2, I3, Hsp, <- app_assoc. simpl.
      repeat split.
      * intros _. destruct (sent b) as [|p l] eqn:Eb.
        -- rewrite (I5 eq_refl). rewrite URL_set_query.
           rewrite params_set_fresh by exact Hku. reflexivity.
        -- rewrite I4 by discriminate. rewrite Hsp, <- app_assoc.
           reflexivity.
      * discriminate.
    + specialize (IH u Hnd').
      destruct IH as (I1 & I2 & I3 & I4 & I5).
      { intros k' H'. apply Hdis in H'. unfold has_key in *. simpl in H'.
        destruct (k' =? k)%string; [discriminate|exact H']. }
      cbv zeta. repeat split; assumption.
Qed.

(** Whatever the bag, the loop gives the URL no key that is not a key of the
    bag or already in the URL. *)
Lemma fold_entries_keys (b : bag) : forall u k,
  has_key k (searchParams (fold_left add_entry b u)) = true ->
  has_key k (searchParams u) = true \/ has_key k b = true.
Proof.
  induction b as [|[n v] b IH]; intros u k H; simpl in H; [auto|].
  apply IH in H. destruct H as [H|H].
  - unfold add_entry in H. simpl in H. destruct (is_sent v).
    + unfold URL_set in H. simpl in H. apply has_key_params_set in H.
      destruct H as [->|H]; [|auto].
      right. unfold has_key. simpl. rewrite String.eqb_refl. reflexivity.
    + auto.
  - right. unfold has_key in *. simpl. destruct (k =? n)%string; auto.
Qed.

(** ** URLs built on the base *)

Lemma plain_kept path :
  plain_path path = true -> plain_path (kept_path path) = true.
Proof. intros H. apply sforall_sfilter, sforall_rstrip, H. Qed.

Lemma url_clean_base path :
  url_clean (BASE_URL ++ path) = BASE_URL ++ kept_path path.
Proof. reflexivity. Qed.

Lemma literal_char_plain c :
  is_literal_char c = true
  -> negb (Ascii.eqb "?" c || Ascii.eqb "#" c) = true.
Proof.
  destruct c as [[] [] [] [] [] [] [] []]; intros H;
    first [ reflexivity | discriminate H ].
Qed.

Lemma literal_plain s : sforall is_literal_char s = true -> plain_path s = true.
Proof. apply sforall_weaken, literal_char_plain. Qed.

Lemma literal_char_kept c :
  is_literal_char c = true
  -> is_c0_or_space c = false /\ is_tab_or_newline c = false.
Proof.
  destruct c as [[] [] [] [] [] [] [] []]; intros H;
    first [ split; reflexivity | discriminate H ].
Qed.

Lemma sfilter_all p s : sforall p s = true -> sfilter p s = s.
Proof.
  induction s as [|c s IH]; [reflexivity|].
  cbn [sforall sfilter]. intros H. apply andb_true_iff in H.
  destruct H as [H1 H2]. rewrite H1, (IH H2). reflexivity.
Qed.

(** The URL parser keeps a path of literal characters as it is. *)
Lemma literal_kept s : sforall is_literal_char s = true -> kept_path s = s.
Proof.
  intros H. unfold kept_path.
  assert (Hr : rstrip s = s).
  { induction s as [|c s IH]; [reflexivity|].
    cbn [sforall] in H. apply andb_true_iff in H. destruct H as [H1 H2].
    cbn [rstrip]. rewrite (IH H2).
    destruct (literal_char_kept c H1) as [Hc _]. rewrite Hc. reflexivity. }
  rewrite Hr. apply sfilter_all. apply sforall_weaken with (2 := H).
  intros c Hc. destruct (literal_char_kept c Hc) as [_ Ht]. rewrite Ht.
  reflexivity.
Qed.

Section Properties.

Variable engine : Engine.

Lemma plain_base path : plain_path (url_base (resource engine path)) = true.
Proof.
  unfold resource. cbn [url_base].
  destruct (sforall is_literal_char (kept_path path)) eqn:E.
  - unfold plain_path. rewrite sforall_app.
    apply andb_true_iff. split; [reflexivity|apply literal_plain, E].
  - apply url_spelling_plain.
Qed.

(** For a path of literal characters, the URL of the resource is the base
    URL followed by the path. *)
Lemma literal_base path :
  sforall is_literal_char path = true ->
  url_base (resource engine path) = BASE_URL ++ path.
Proof.
  intros H. unfold resource. cbn [url_base].
  rewrite (literal_kept path H), H. reflexivity.
Qed.

Lemma URL_parse_plain path :
  plain_path path = true ->
  URL_parse engine (BASE_URL ++ path)
  = Some (resource engine path).
Proof.
  intros H. apply plain_kept in H. unfold resource.
  unfold URL_parse. rewrite url_clean_base.
  set (k := kept_path path) in *.
  change (split_scheme (BASE_URL ++ k))
    with (Some ("https", "//harvest.greenhouse.io/v3" ++ k)).
  cbv beta iota.
  change (smap to_lower "https") with "https".
  assert (H1 : split_at (Ascii.eqb "#") ("//harvest.greenhouse.io/v3" ++ k)
               = None).
  { apply split_at_none. rewrite sforall_app. simpl.
    apply plain_no_hash, H. }
  assert (H2 : split_at (Ascii.eqb "?") ("//harvest.greenhouse.io/v3" ++ k)
               = None).
  { apply split_at_none. rewrite sforall_app. simpl.
    apply plain_no_question, H. }
  rewrite H1, H2.
  change (authority_of ("//harvest.greenhouse.io/v3" ++ k))
    with "harvest.greenhouse.io".
  reflexivity.
Qed.

Lemma URL_parse_base_total path :
  exists u, URL_parse engine (BASE_URL ++ path) = Some u.
Proof.
  unfold URL_parse. rewrite url_clean_base.
  set (k := kept_path path).
  change (split_scheme (BASE_URL ++ k))
    with (Some ("https", "//harvest.greenhouse.io/v3" ++ k)).
  cbv beta iota.
  change (smap to_lower "https") with "https".
  rewrite (split_at_prefix (Ascii.eqb "#") "//harvest.greenhouse.io/v3" k
             eq_refl).
  destruct (split_at (Ascii.eqb "#") k) as [[l f]|];
    [ rewrite (split_at_prefix (Ascii.eqb "?") "//harvest.greenhouse.io/v3" l
                 eq_refl);
      destruct (split_at (Ascii.eqb "?") l) as [[l' q]|]
    | rewrite (split_at_prefix (Ascii.eqb "?") "//harvest.greenhouse.io/v3" k
                 eq_refl);
      destruct (split_at (Ascii.eqb "?") k) as [[l' q]|] ];
    eexists; reflexivity.
Qed.

Lemma buildUrl_fold path params :
  buildUrl engine path params
  = match URL_parse engine (BASE_URL ++ path) with
    | Some u =>
        Some (URL_toString
                (match params with
                 | Some b => fold_left add_entry b u
                 | None => u
                 end))
    | None => None
    end.
Proof. reflexivity. Qed.

Lemma buildUrl_total path params :
  exists url, buildUrl engine path params = Some url.
Proof.
  rewrite buildUrl_fold. destruct (URL_parse_base_total path) as [u ->].
  eexists; reflexivity.
Qed.

(** The URL [buildUrl] makes from a bag, for a path without query. *)
Lemma buildUrl_plain path (b : bag) :
  plain_path path = true -> NoDup (map fst b) ->
  buildUrl engine path (Some b)
  = Some (url_base (resource engine path)
          ++ match sent b with
             | [] => ""
             | l => "?" ++ urlencoded_serialize l
             end).
Proof.
  intros Hp Hnd. rewrite buildUrl_fold, (URL_parse_plain path Hp).
  destruct (fold_entries b (resource engine path) Hnd)
    as (I1 & I2 & I3 & I4 & I5).
  { intros k H. discriminate. }
  unfold URL_toString. rewrite I2, I3.
  change (url_fragment (resource engine path)) with (@None string).
  destruct (sent b) as [|p l] eqn:E.
  - rewrite (I5 eq_refl).
    change (url_query (resource engine path)) with (@None string).
    reflexivity.
  - rewrite I4 by discriminate.
    change (searchParams (resource engine path)) with (@nil (string * string)).
    cbn [app]. rewrite append_nil_r. reflexivity.
Qed.

(** ** Traces *)

Lemma requests_app (a b : list Event) :
  requests (a ++ b) = (requests a ++ requests b)%list.
Proof.
  induction a as [|e a IH]; simpl; [reflexivity|].
  destruct e; simpl; rewrite IH; reflexivity.
Qed.

Lemma emits_silent {A : Type} P (c : M A) :
  (forall w, trace (snd (c w)) = trace w) -> emits P c.
Proof.
  intros H w. exists []. rewrite H, app_nil_r. split; [reflexivity|constructor].
Qed.

Lemma emits_ret {A : Type} P (a : A) : emits P (ret a).
Proof. apply emits_silent. reflexivity. Qed.

Lemma emits_throw {A : Type} P e : emits P (@throw A e).
Proof. apply emits_silent. reflexivity. Qed.

Lemma emits_read {A : Type} P (f : World -> A) : emits P (read f).
Proof. apply emits_silent. reflexivity. Qed.

Lemma emits_write P f :
  (forall w, trace (f w) = trace w) -> emits P (write f).
Proof. intros H. apply emits_silent. exact H. Qed.

Lemma emits_orTypeError {A : Type} P (o : option A) : emits P (orTypeError o).
Proof. destruct o; [apply emits_ret|apply emits_throw]. Qed.

Lemma emits_fetch (P : Request -> Prop) r : P r -> emits P (fetch r).
Proof.
  intros H w. exists [EvFetch r]. unfold fetch.
  destruct (network w (trace w) r); simpl; (split; [reflexivity|]);
    constructor; auto.
Qed.

Lemma emits_text P res : emits P (text res).
Proof. intros w. exists [EvText]. split; [reflexivity|constructor]. Qed.

Lemma emits_json P res : emits P (json res).
Proof.
  intros w. exists [EvJson]. unfold json.
  destruct (res_json res); (split; [reflexivity|constructor]).
Qed.

Lemma emits_bind {A B : Type} P (c : M A) (k : A -> M B) :
  emits P c -> (forall a, emits P (k a)) -> emits P (bind c k).
Proof.
  intros Hc Hk w. unfold bind. destruct (Hc w) as [n1 [E1 F1]].
  destruct (c w) as [[a|e] w1]; simpl in *.
  - destruct (Hk a w1) as [n2 [E2 F2]]. exists (n1 ++ n2)%list.
    rewrite E2, E1, app_assoc, requests_app. split; [reflexivity|].
    apply Forall_app. auto.
  - exists n1. auto.
Qed.

(** As [emits_bind], keeping what the platform operation returned. *)
Lemma emits_bind_some {A B : Type} P (o : option A) (k : A -> M B) :
  (forall a, o = Some a -> emits P (k a)) -> emits P (bind (orTypeError o) k).
Proof.
  intros Hk. destruct o as [a|].
  - intros w. exact (Hk a eq_refl w).
  - apply emits_throw.
Qed.

Lemma emits_weaken {A : Type} (P Q : Request -> Prop) (c : M A) :
  (forall r, P r -> Q r) -> emits P c -> emits Q c.
Proof.
  intros HPQ Hc w. destruct (Hc w) as [n [E F]]. exists n.
  split; [exact E|]. revert F. apply Forall_impl. exact HPQ.
Qed.

(** ** The token manager *)

Lemma usable_test (w : World) :
  usable w <->
  truthy (cachedToken w)
  && num_lt (Num (clock w)) (num_sub (tokenExpiresAt w) 60000) = true.
Proof.
  unfold usable. split.
  - intros [Ht [e [He Hlt]]]. rewrite Ht, He. simpl.
    apply Z.ltb_lt. lia.
  - intros H. apply andb_true_iff in H. destruct H as [Ht Hn].
    split; [exact Ht|].
    destruct (tokenExpiresAt w) as [|e]; simpl in Hn; [discriminate|].
    exists e. split; [reflexivity|]. apply Z.ltb_lt in Hn. lia.
Qed.

Lemma getAccessToken_cached id secret w :
  usable w -> getAccessToken engine id secret w = (Return (cachedToken w), w).
Proof.
  intros H. apply usable_test in H.
  unfold getAccessToken, bind, read, Date_now, read, ret. rewrite H.
  reflexivity.
Qed.

Lemma getAccessToken_exchange id secret w :
  ~ usable w -> getAccessToken engine id secret w = exchanged engine id secret w.
Proof.
  intros H. rewrite usable_test in H. apply not_true_is_false in H.
  unfold getAccessToken, exchanged, bind, read, Date_now, read, ret.
  rewrite H. unfold fetch. fold (tokenRequest id secret).
  destruct (network w (trace w) (tokenRequest id secret)) as [res|];
    [|reflexivity].
  destruct (res_ok res); simpl; [|reflexivity].
  unfold json. destruct (res_json res) as [d|]; [|reflexivity].
  unfold orTypeError.
  destruct (get_prop d "access_token") as [a|]; [|reflexivity]. simpl.
  destruct (get_prop d "expires_at") as [ea|]; [|reflexivity]. simpl.
  destruct (Date_getTime engine ea) as [t|]; reflexivity.
Qed.

Lemma exchanged_requests id secret w :
  requests (trace (snd (exchanged engine id secret w)))
  = (requests (trace w) ++ [tokenRequest id secret])%list.
Proof.
  unfold exchanged.
  destruct (network w (trace w) (tokenRequest id secret)) as [res|];
    [|simpl; rewrite requests_app; reflexivity].
  destruct (res_ok res);
    [|simpl; rewrite !requests_app; simpl; rewrite app_nil_r; reflexivity].
  cbv zeta.
  destruct (res_json res) as [d|];
    [|simpl; rewrite !requests_app; simpl; rewrite app_nil_r; reflexivity].
  destruct (get_prop d "access_token") as [a|];
    [|simpl; rewrite !requests_app; simpl; rewrite app_nil_r; reflexivity].
  destruct (get_prop d "expires_at") as [ea|];
    [|simpl; rewrite !requests_app; simpl; rewrite app_nil_r; reflexivity].
  destruct (Date_getTime engine ea) as [t|];
    simpl; rewrite !requests_app; simpl; rewrite app_nil_r; reflexivity.
Qed.

Lemma emits_getAccessToken id secret :
  emits (fun r => r = tokenRequest id secret) (getAccessToken engine id secret).
Proof.
  unfold getAccessToken.
  apply emits_bind; [apply emits_read|intros tok].
  apply emits_bind; [apply emits_read|intros expiry].
  apply emits_bind; [apply emits_read|intros now].
  destruct (truthy tok && num_lt (Num now) (num_sub expiry 60000));
    [apply emits_ret|].
  apply emits_bind; [apply emits_fetch; reflexivity|intros res].
  destruct (negb (res_ok res)).
  - apply emits_bind; [apply emits_text|intros body]. apply emits_throw.
  - apply emits_bind; [apply emits_json|intros d].
    apply emits_bind; [apply emits_orTypeError|intros a].
    apply emits_bind; [apply emits_write; reflexivity|intros _].
    apply emits_bind; [apply emits_orTypeError|intros ea].
    apply emits_bind; [apply emits_orTypeError|intros t].
    apply emits_bind; [apply emits_write; reflexivity|intros _].
    apply emits_read.
Qed.

(** ** The request engine *)

Lemma getConfig_run w cfg : config w = Some cfg -> getConfig w = (Return cfg, w).
Proof. intros H. unfold getConfig, bind, read, ret. rewrite H. reflexivity. Qed.

Lemma apiGet_run path params w cfg tok w1 url bearer :
  config w = Some cfg ->
  getAccessToken engine (clientId cfg) (clientSecret cfg) w = (Return tok, w1) ->
  buildUrl engine path params = Some url ->
  ToString tok = Some bearer ->
  apiGet engine path params w
  = bind (fetch (getRequest url bearer)) (received engine) w1.
Proof.
  intros Hc Ht Hu Hb.
  unfold apiGet. unfold bind at 1. rewrite (getConfig_run w cfg Hc).
  unfold bind at 1. rewrite Ht.
  unfold bind at 1. rewrite Hu. unfold orTypeError at 1, ret at 1.
  unfold bind at 1. rewrite Hb. unfold orTypeError at 1, ret at 1.
  reflexivity.
Qed.

Lemma apiGetWithCursor_run path cursor perPage w cfg tok w1 u bearer :
  config w = Some cfg ->
  getAccessToken engine (clientId cfg) (clientSecret cfg) w = (Return tok, w1) ->
  URL_parse engine (BASE_URL ++ path) = Some u ->
  ToString tok = Some bearer ->
  apiGetWithCursor engine path cursor perPage w
  = bind (fetch (getRequest (URL_toString (URL_set "cursor" cursor u)) bearer))
      (received engine) w1.
Proof.
  intros Hc Ht Hu Hb.
  unfold apiGetWithCursor. unfold bind at 1. rewrite (getConfig_run w cfg Hc).
  unfold bind at 1. rewrite Ht.
  unfold bind at 1. rewrite Hu. unfold orTypeError at 1, ret at 1.
  unfold bind at 1. rewrite Hb. unfold orTypeError at 1, ret at 1.
  reflexivity.
Qed.

Lemma match_next_nonempty s u : match_next s = Some u -> u <> "".
Proof.
  induction s as [|c s IH].
  - simpl. discriminate.
  - cbn [match_next]. destruct (next_at (String c s)) as [v|] eqn:E.
    + intros [= <-]. unfold next_at in E.
      destruct (expect "<" (String c s)) as [s1|]; [|discriminate].
      destruct (split_at (Ascii.eqb ">") s1) as [[x s2]|]; [|discriminate].
      destruct (x =? "")%string eqn:Ex; [discriminate|].
      destruct (expect ";" s2) as [s3|]; [|discriminate].
      destruct (starts_with ("rel=" ++ DQ ++ "next" ++ DQ) (skip_ws s3));
        [|discriminate].
      injection E as <-. intros ->. discriminate.
    + exact IH.
Qed.

Lemma parseLinkHeader_nonempty h u : parseLinkHeader h = Some u -> u <> "".
Proof.
  destruct h as [h|]; simpl; [|discriminate].
  destruct (h =? "")%string; [discriminate|]. apply match_next_nonempty.
Qed.

(** After a failure status: the body is read as text and the error thrown. *)
Lemma received_failure req res w1 :
  network w1 (trace w1) req = Some res -> res_ok res = false ->
  bind (fetch req) (received engine) w1
  = (Throw (apiError res (res_text res)), log EvText (log (EvFetch req) w1)).
Proof.
  intros Hn Hok. unfold bind at 1, fetch. rewrite Hn.
  unfold received. rewrite Hok. reflexivity.
Qed.

(** After a success status with a JSON body and a next link that parses. *)
Lemma received_next req res d next u w1 :
  network w1 (trace w1) req = Some res -> res_ok res = true ->
  res_json res = Some d ->
  parseLinkHeader (res_link res) = Some next ->
  URL_parse engine next = Some u ->
  bind (fetch req) (received engine) w1
  = (Return {| data := d; nextCursor := params_get "cursor" (searchParams u) |},
     log EvJson (log (EvFetch req) w1)).
Proof.
  intros Hn Hok Hj Hl Hu. unfold bind at 1, fetch. rewrite Hn.
  unfold received. rewrite Hok. cbn [negb].
  unfold bind at 1, json. rewrite Hj.
  unfold bind at 1, cursorOf. rewrite Hl.
  pose proof (parseLinkHeader_nonempty _ _ Hl) as Hne.
  apply String.eqb_neq in Hne. rewrite Hne.
  unfold bind, orTypeError. rewrite Hu. reflexivity.
Qed.

(** After a success status with a JSON body and no next link. *)
Lemma received_last req res d w1 :
  network w1 (trace w1) req = Some res -> res_ok res = true ->
  res_json res = Some d ->
  parseLinkHeader (res_link res) = None ->
  bind (fetch req) (received engine) w1
  = (Return {| data := d; nextCursor := None |},
     log EvJson (log (EvFetch req) w1)).
Proof.
  intros Hn Hok Hj Hl. unfold bind at 1, fetch. rewrite Hn.
  unfold received. rewrite Hok. cbn [negb].
  unfold bind at 1, json. rewrite Hj.
  unfold bind at 1, cursorOf. rewrite Hl. reflexivity.
Qed.

Lemma apiPost_run path body w cfg tok w1 bearer :
  config w = Some cfg ->
  getAccessToken engine (clientId cfg) (clientSecret cfg) w = (Return tok, w1) ->
  ToString tok = Some bearer ->
  apiPost engine path body w
  = match network w1 (trace w1)
            (postRequest (BASE_URL ++ path) bearer (postBody body)) with
    | None =>
        (Throw TypeError,
         log (EvFetch (postRequest (BASE_URL ++ path) bearer (postBody body))) w1)
    | Some res =>
        let w2 :=
          log (EvFetch (postRequest (BASE_URL ++ path) bearer (postBody body)))
            w1 in
        if res_ok res then
          if res_status res =? 204 then
            (Return {| data := VObj []; nextCursor := None |}, w2)
          else
            match res_json res with
            | Some d => (Return {| data := d; nextCursor := None |}, log EvJson w2)
            | None => (Throw SyntaxError, log EvJson w2)
            end
        else (Throw (apiError res (res_text res)), log EvText w2)
    end.
Proof.
  intros Hc Ht Hb.
  unfold apiPost. unfold bind at 1. rewrite (getConfig_run w cfg Hc).
  unfold bind at 1. rewrite Ht.
  unfold bind at 1. rewrite Hb. unfold orTypeError at 1, ret at 1.
  unfold bind at 1, fetch.
  fold (postBody body).
  fold (postRequest (BASE_URL ++ path) bearer (postBody body)).
  destruct (network w1 (trace w1)
              (postRequest (BASE_URL ++ path) bearer (postBody body)))
    as [res|]; [|reflexivity].
  destruct (res_ok res); cbn [negb]; [|reflexivity].
  destruct (res_status res =? 204); [reflexivity|].
  unfold bind, json. destruct (res_json res); reflexivity.
Qed.

(** ** Routing and query strings *)

Lemma tied_set k v u : tied (URL_set k v u).
Proof.
  unfold tied. rewrite URL_set_query. unfold URL_set. cbn [searchParams].
  destruct (searchParams u) as [|[n x] l]; simpl; [reflexivity|].
  destruct (n =? k)%string; reflexivity.
Qed.

Lemma fold_tied (b : bag) : forall u,
  tied u ->
  tied (fold_left add_entry b u)
  /\ url_base (fold_left add_entry b u) = url_base u
  /\ url_fragment (fold_left add_entry b u) = url_fragment u.
Proof.
  induction b as [|[k v] b IH]; intros u Hu; simpl; [auto|].
  unfold add_entry at 2 4 6. cbn [fst snd]. destruct (is_sent v).
  - destruct (IH (URL_set k (String_of v) u) (tied_set _ _ _))
      as (I1 & I2 & I3).
    rewrite I2, I3. auto.
  - apply IH, Hu.
Qed.

Lemma href_query_tied u :
  plain_path (url_base u) = true -> url_fragment u = None -> tied u ->
  href_query (URL_toString u) = query_of (searchParams u).
Proof.
  intros Hb Hf Ht. unfold URL_toString. rewrite Hf, Ht.
  unfold query_of. destruct (searchParams u) as [|p l].
  - rewrite !append_nil_r. apply href_query_none, Hb.
  - rewrite append_nil_r. apply href_query_some; [exact Hb|].
    apply serialize_no_hash.
Qed.

(** The query of the URL [buildUrl] makes holds keys of the bag only. *)
Lemma buildUrl_query path (b : bag) url :
  plain_path path = true ->
  buildUrl engine path (Some b) = Some url ->
  exists l,
    href_query url = query_of l
    /\ forall k, has_key k l = true -> has_key k b = true.
Proof.
  intros Hp. rewrite buildUrl_fold, (URL_parse_plain path Hp).
  intros [= <-].
  exists (searchParams (fold_left add_entry b (resource engine path))).
  destruct (fold_tied b (resource engine path) eq_refl) as (I1 & I2 & I3).
  split.
  - apply href_query_tied; [rewrite I2; apply plain_base|
                            rewrite I3; reflexivity|exact I1].
  - intros k H. apply fold_entries_keys in H. destruct H as [H|H];
      [discriminate|exact H].
Qed.

(** The URL of the cursor call, as text. *)
Lemma cursor_href path c :
  URL_toString (URL_set "cursor" c (resource engine path))
  = url_base (resource engine path) ++ "?cursor=" ++ form_encode c.
Proof.
  unfold URL_toString. rewrite URL_set_query.
  change (url_base (URL_set "cursor" c (resource engine path)))
    with (url_base (resource engine path)).
  change (url_fragment (URL_set "cursor" c (resource engine path)))
    with (@None string).
  change (searchParams (URL_set "cursor" c (resource engine path)))
    with [("cursor", c)].
  unfold urlencoded_serialize. cbn [map join fst snd].
  change (form_encode "cursor") with "cursor".
  rewrite append_nil_r. reflexivity.
Qed.

Lemma cursor_url path c :
  href_query (URL_toString (URL_set "cursor" c (resource engine path)))
  = Some ("cursor=" ++ form_encode c).
Proof.
  rewrite href_query_tied.
  - reflexivity.
  - apply plain_base.
  - reflexivity.
  - apply tied_set.
Qed.

(** For a path of literal characters, the URL of the cursor call is the
    base URL, the path and the one parameter. *)
Lemma cursor_literal path c :
  sforall is_literal_char path = true ->
  URL_toString (URL_set "cursor" c (resource engine path))
  = BASE_URL ++ path ++ "?cursor=" ++ form_encode c.
Proof.
  intros H. rewrite cursor_href, (literal_base path H).
  apply append_assoc.
Qed.

Lemma emits_getConfig P : emits P getConfig.
Proof.
  unfold getConfig. apply emits_bind; [apply emits_read|intros [cfg|]];
    [apply emits_ret|apply emits_throw].
Qed.

Lemma emits_cursorOf P next : emits P (cursorOf engine next).
Proof.
  unfold cursorOf. destruct next as [u|]; [|apply emits_ret].
  destruct (u =? "")%string; [apply emits_ret|].
  apply emits_bind; [apply emits_orTypeError|intros parsed]. apply emits_ret.
Qed.

Lemma emits_received P res : emits P (received engine res).
Proof.
  unfold received. destruct (negb (res_ok res)).
  - apply emits_bind; [apply emits_text|intros body]. apply emits_throw.
  - apply emits_bind; [apply emits_json|intros d].
    apply emits_bind; [apply emits_cursorOf|intros c]. apply emits_ret.
Qed.


(** The requests of [apiGet]: the token exchange, then the URL of
    [buildUrl]. *)
Lemma emits_apiGet path params :
  emits (fun r => req_url r = TOKEN_URL
                  \/ buildUrl engine path params = Some (req_url r))
    (apiGet engine path params).
Proof.
  unfold apiGet.
  apply emits_bind; [apply emits_getConfig|intros cfg].
  apply emits_bind.
  { eapply emits_weaken; [|apply emits_getAccessToken].
    intros r ->. left. reflexivity. }
  intros tok. apply emits_bind_some. intros url Hu.
  apply emits_bind; [apply emits_orTypeError|intros bearer].
  apply emits_bind; [apply emits_fetch; right; exact Hu|intros res].
  apply emits_received.
Qed.

(** The requests of [apiGetWithCursor]: the token exchange, then the URL of
    the resource with the cursor set. *)
Lemma emits_apiGetWithCursor path cursor perPage :
  emits (fun r => req_url r = TOKEN_URL
                  \/ exists u, URL_parse engine (BASE_URL ++ path) = Some u
                               /\ req_url r
                                  = URL_toString (URL_set "cursor" cursor u))
    (apiGetWithCursor engine path cursor perPage).
Proof.
  unfold apiGetWithCursor.
  apply emits_bind; [apply emits_getConfig|intros cfg].
  apply emits_bind.
  { eapply emits_weaken; [|apply emits_getAccessToken].
    intros r ->. left. reflexivity. }
  intros tok. apply emits_bind_some. intros u Hu.
  apply emits_bind; [apply emits_orTypeError|intros bearer].
  apply emits_bind; [apply emits_fetch; right; exists u; auto|intros res].
  apply emits_received.
Qed.

(** ** One request, and nothing after it *)

(** A computation that emits nothing leaves the requests as they were. *)
Lemma silent_requests {A : Type} (c : M A) w :
  emits (fun _ => False) c -> requests (trace (snd (c w))) = requests (trace w).
Proof.
  intros H. destruct (H w) as [n [E F]]. rewrite E, requests_app.
  destruct (requests n) as [|r l]; [apply app_nil_r|].
  inversion F; contradiction.
Qed.

(** A fetch followed by the reading of the response adds the request of
    the fetch to the trace, and no other. *)
Lemma fetch_requests {A : Type} req (k : Response -> M A) w1 :
  (forall res, emits (fun _ => False) (k res)) ->
  requests (trace (snd (bind (fetch req) k w1)))
  = (requests (trace w1) ++ [req])%list.
Proof.
  intros Hk. unfold bind, fetch.
  destruct (network w1 (trace w1) req) as [res|].
  - rewrite (silent_requests (k res) _ (Hk res)).
    cbn [log trace]. rewrite requests_app. reflexivity.
  - cbn [snd log trace]. rewrite requests_app. reflexivity.
Qed.

Lemma received_requests req w1 :
  requests (trace (snd (bind (fetch req) (received engine) w1)))
  = (requests (trace w1) ++ [req])%list.
Proof. apply fetch_requests. intros res. apply emits_received. Qed.


(** Formatting the result adds nothing to the trace. *)
Lemma formatted_trace (c : M ApiResponse) w :
  trace (snd (bind c (fun response => ret (formatResult response)) w))
  = trace (snd (c w)).
Proof. unfold bind. destruct (c w) as [[a|e] w']; reflexivity. Qed.


(** The cursor call, once the configuration and the token are there. *)
Lemma cursor_call path c perPage w cfg tok w1 bearer :
  plain_path path = true ->
  config w = Some cfg ->
  getAccessToken engine (clientId cfg) (clientSecret cfg) w = (Return tok, w1) ->
  ToString tok = Some bearer ->
  exists url,
    href_query url = Some ("cursor=" ++ form_encode c)
    /\ apiGetWithCursor engine path c perPage w
       = bind (fetch (getRequest url bearer)) (received engine) w1
    /\ requests (trace (snd (apiGetWithCursor engine path c perPage w)))
       = (requests (trace w1) ++ [getRequest url bearer])%list
    /\ (sforall is_literal_char path = true ->
        url = BASE_URL ++ path ++ "?cursor=" ++ form_encode c).
Proof.
  intros Hp Hc Ht Hb.
  exists (URL_toString (URL_set "cursor" c (resource engine path))).
  pose proof (apiGetWithCursor_run path c perPage w cfg tok w1
                (resource engine path) bearer Hc Ht (URL_parse_plain path Hp)
                Hb) as Hrun.
  split; [apply cursor_url|].
  split; [exact Hrun|].
  split; [rewrite Hrun; apply received_requests|].
  apply cursor_literal.
Qed.

(** The filter call, once the configuration and the token are there. *)
Lemma filter_call path params w cfg tok w1 bearer url :
  buildUrl engine path params = Some url ->
  config w = Some cfg ->
  getAccessToken engine (clientId cfg) (clientSecret cfg) w = (Return tok, w1) ->
  ToString tok = Some bearer ->
  apiGet engine path params w
  = bind (fetch (getRequest url bearer)) (received engine) w1
  /\ requests (trace (snd (apiGet engine path params w)))
     = (requests (trace w1) ++ [getRequest url bearer])%list.
Proof.
  intros Hu Hc Ht Hb.
  pose proof (apiGet_run path params w cfg tok w1 url bearer Hc Ht Hu Hb)
    as Hrun.
  split; [exact Hrun|]. rewrite Hrun. apply received_requests.
Qed.

(** ** Reading the reply of the token endpoint *)

Lemma get_prop_prop d name :
  d <> VNull -> d <> VUndefined -> get_prop d name = Some (prop d name).
Proof.
  intros H1 H2. unfold prop.
  destruct d; try congruence; try reflexivity.
  unfold get_prop. destruct (assoc name props); reflexivity.
Qed.

Lemma prop_field name props : prop (VObj props) name = field name props.
Proof.
  unfold prop, field, get_prop. destruct (assoc name props); reflexivity.
Qed.

(** [new Date(v)] throws exactly when [v] has no primitive value. *)
Lemma Date_getTime_fails v : Date_getTime engine v = None <-> ToString v = None.
Proof.
  destruct v as [| |b|n|s|items|props].
  - split; discriminate.
  - split; discriminate.
  - destruct b; split; discriminate.
  - split; discriminate.
  - split; discriminate.
  - unfold Date_getTime. destruct (ToString (VArr items));
      split; congruence.
  - unfold Date_getTime. destruct (ToString (VObj props));
      split; congruence.
Qed.

(** ** The token manager: reuse, refresh, and what a reply must look like *)

(** C1. With a cached token and the clock more than 60 seconds before the
    recorded expiry, [getAccessToken] returns the cached value and leaves the
    world, trace included, as it was: no network call.  Otherwise it adds
    exactly one request to the trace, the token exchange; an expiry 60
    seconds away or less is such a case.  When the exchange succeeds with
    [access_token] and a timestamp [expires_at], the token returned and
    cached is [access_token], and the cache holds the epoch milliseconds of
    the timestamp. *)
Theorem C1_token_reuse_and_refresh (id secret : string) (w : World) :
  (usable w ->
   getAccessToken engine id secret w = (Return (cachedToken w), w))
  /\ (~ usable w ->
      requests (trace (snd (getAccessToken engine id secret w)))
      = (requests (trace w) ++ [tokenRequest id secret])%list)
  /\ (forall e,
        tokenExpiresAt w = Num e -> e - clock w <= 60000 -> ~ usable w)
  /\ (forall res props token stamp ms,
        ~ usable w ->
        network w (trace w) (tokenRequest id secret) = Some res ->
        res_ok res = true ->
        res_json res = Some (VObj props) ->
        assoc "access_token" props = Some (VStr token) ->
        assoc "expires_at" props = Some (VStr stamp) ->
        iso_parse stamp = Some ms ->
        fst (getAccessToken engine id secret w) = Return (VStr token)
        /\ cachedToken (snd (getAccessToken engine id secret w)) = VStr token
        /\ tokenExpiresAt (snd (getAccessToken engine id secret w)) = Num ms).
Proof.
  split; [apply getAccessToken_cached|].
  split.
  { intros H. rewrite (getAccessToken_exchange id secret w H).
    apply exchanged_requests. }
  split.
  { intros e He Hle [_ [e' [He' Hlt]]]. rewrite He in He'.
    injection He' as <-. lia. }
  intros res props token stamp ms H Hn Hok Hj Ha He Hms.
  rewrite (getAccessToken_exchange id secret w H).
  unfold exchanged. rewrite Hn, Hok, Hj. cbv zeta.
  unfold get_prop. rewrite Ha, He.
  unfold Date_getTime, Date_parse. rewrite Hms.
  unfold TimeClip.
  pose proof (iso_parse_in_range stamp ms Hms) as Hr.
  apply Z.leb_le in Hr. rewrite Hr. auto.
Qed.

(** C7, as amended.  After a success status, [getAccessToken] fails in
    these cases and no other: the body is not JSON (SyntaxError, nothing
    cached); the body decodes to [null] (TypeError, nothing cached); the
    body decodes to something whose [expires_at] has no primitive value, an
    object with a field [toString] for one (TypeError, thrown after
    [access_token] was cached, the expiry staying as it was).  Any other
    body is accepted, an object whatever its fields as well as a number, a
    string, a boolean or an array: the value of [access_token], [undefined]
    when there is none, is cached and returned, and the expiry is whatever
    [expires_at] converts to, [NaN] when there is none, so that the next
    call exchanges again. *)
Theorem C7_malformed_body_amended (id secret : string) (w : World)
  (res : Response) :
  ~ usable w ->
  network w (trace w) (tokenRequest id secret) = Some res ->
  res_ok res = true ->
  let w2 := log EvJson (log (EvFetch (tokenRequest id secret)) w) in
  (res_json res = None ->
   getAccessToken engine id secret w = (Throw SyntaxError, w2))
  /\ (res_json res = Some VNull ->
      getAccessToken engine id secret w = (Throw TypeError, w2))
  /\ (forall d,
        res_json res = Some d -> d <> VNull -> d <> VUndefined ->
        (ToString (prop d "expires_at") = None ->
         getAccessToken engine id secret w
         = (Throw TypeError, set_cachedToken (prop d "access_token") w2))
        /\ (forall t,
              Date_getTime engine (prop d "expires_at") = Some t ->
              getAccessToken engine id secret w
              = (Return (prop d "access_token"),
                 set_tokenExpiresAt t
                   (set_cachedToken (prop d "access_token") w2)))
        /\ (ToString (prop d "expires_at") = None
            \/ exists t, Date_getTime engine (prop d "expires_at") = Some t))
  /\ ((exists e, fst (getAccessToken engine id secret w) = Throw e) <->
      res_json res = None
      \/ res_json res = Some VNull
      \/ res_json res = Some VUndefined
      \/ exists d, res_json res = Some d
                   /\ ToString (prop d "expires_at") = None)
  /\ (forall props,
        res_json res = Some (VObj props) ->
        assoc "expires_at" props = None ->
        fst (getAccessToken engine id secret w)
        = Return (field "access_token" props)
        /\ tokenExpiresAt (snd (getAccessToken engine id secret w)) = NaN
        /\ ~ usable (snd (getAccessToken engine id secret w)))
  /\ (forall d,
        res_json res = Some d ->
        match d with
        | VBool _ | VNum _ | VStr _ | VArr _ => True
        | _ => False
        end ->
        fst (getAccessToken engine id secret w) = Return VUndefined
        /\ tokenExpiresAt (snd (getAccessToken engine id secret w)) = NaN).
Proof.
  intros H Hn Hok w2. rewrite (getAccessToken_exchange id secret w H).
  unfold exchanged. rewrite Hn, Hok. cbv zeta. fold w2.
  assert (Hd : forall d,
            res_json res = Some d -> d <> VNull -> d <> VUndefined ->
            (ToString (prop d "expires_at") = None ->
             match res_json res with
             | None => (Throw SyntaxError, w2)
             | Some d =>
                 match get_prop d "access_token" with
                 | None => (Throw TypeError, w2)
                 | Some a =>
                     match get_prop d "expires_at" with
                     | None => (Throw TypeError, set_cachedToken a w2)
                     | Some ea =>
                         match Date_getTime engine ea with
                         | None => (Throw TypeError, set_cachedToken a w2)
                         | Some t =>
                             (Return a,
                              set_tokenExpiresAt t (set_cachedToken a w2))
                         end
                     end
                 end
             end
             = (Throw TypeError, set_cachedToken (prop d "access_token") w2))
            /\ (forall t,
                  Date_getTime engine (prop d "expires_at") = Some t ->
                  match res_json res with
                  | None => (Throw SyntaxError, w2)
                  | Some d =>
                      match get_prop d "access_token" with
                      | None => (Throw TypeError, w2)
                      | Some a =>
                          match get_prop d "expires_at" with
                          | None => (Throw TypeError, set_cachedToken a w2)
                          | Some ea =>
                              match Date_getTime engine ea with
                              | None => (Throw TypeError, set_cachedToken a w2)
                              | Some t =>
                                  (Return a,
                                   set_tokenExpiresAt t (set_cachedToken a w2))
                              end
                          end
                      end
                  end
                  = (Return (prop d "access_token"),
                     set_tokenExpiresAt t
                       (set_cachedToken (prop d "access_token") w2)))
            /\ (ToString (prop d "expires_at") = None
                \/ exists t, Date_getTime engine (prop d "expires_at") = Some t)).
  { intros d -> H1 H2.
    rewrite !(get_prop_prop d _ H1 H2).
    split; [|split].
    - intros Hs. apply Date_getTime_fails in Hs. rewrite Hs. reflexivity.
    - intros t ->. reflexivity.
    - destruct (Date_getTime engine (prop d "expires_at")) as [t|] eqn:E.
      + right. exists t. reflexivity.
      + left. apply Date_getTime_fails, E. }
  split; [intros ->; reflexivity|].
  split; [intros ->; reflexivity|].
  split; [exact Hd|].
  split.
  { split.
    - intros [e He]. destruct (res_json res) as [d|] eqn:Ej; [|left; reflexivity].
      right. destruct d as [| |b|n|s|items|props];
        try (right; left; reflexivity); try (left; reflexivity);
        right; right;
        match goal with
        | |- exists d', Some ?v = Some d' /\ _ =>
            exists v; split; [reflexivity|];
            destruct (Hd v eq_refl ltac:(discriminate) ltac:(discriminate))
              as (_ & Hr & [Hs|[t Ht]]); [exact Hs|];
            rewrite (Hr t Ht) in He; discriminate He
        end.
    - intros [E|[E|[E|[d [E Hs]]]]]; try (rewrite E; eexists; reflexivity).
      assert (H1 : d <> VNull) by (intros ->; discriminate Hs).
      assert (H2 : d <> VUndefined) by (intros ->; discriminate Hs).
      destruct (Hd d E H1 H2) as (Hf & _). rewrite (Hf Hs).
      eexists; reflexivity. }
  split.
  { intros props E He.
    destruct (Hd (VObj props) E ltac:(discriminate) ltac:(discriminate))
      as (_ & Hr & _).
    assert (Hea : prop (VObj props) "expires_at" = VUndefined).
    { rewrite prop_field. unfold field. rewrite He. reflexivity. }
    rewrite Hea in Hr. rewrite (Hr NaN eq_refl), prop_field.
    split; [reflexivity|]. split; [reflexivity|].
    intros [_ [e [He' _]]]. discriminate He'. }
  intros d E Hshape.
  destruct d as [| |b|n|s|items|props]; try contradiction;
    match type of E with
    | _ = Some ?v =>
        destruct (Hd v E ltac:(discriminate) ltac:(discriminate))
          as (_ & Hr & _);
        rewrite (Hr NaN eq_refl); split; reflexivity
    end.
Qed.

(** C8. [apiGetWithCursor] does not look at [perPage]: two calls that differ
    only there give the same result and the same world, hence the same
    trace of requests, URL and headers included.  Once the configuration
    and the token are there, the call is one GET whose query string is the
    cursor and nothing else; for a path of letters, digits, [_], [-] and
    [/], its URL is the base URL, the path and [?cursor=], whatever
    [perPage]. *)
Theorem C8_perPage_unused (path cursor : string) (p1 p2 : option number)
  (w : World) :
  apiGetWithCursor engine path cursor p1 w
  = apiGetWithCursor engine path cursor p2 w
  /\ (forall cfg tok w1 bearer,
        plain_path path = true ->
        config w = Some cfg ->
        getAccessToken engine (clientId cfg) (clientSecret cfg) w
        = (Return tok, w1) ->
        ToString tok = Some bearer ->
        exists url,
          href_query url = Some ("cursor=" ++ form_encode cursor)
          /\ apiGetWithCursor engine path cursor p1 w
             = bind (fetch (getRequest url bearer)) (received engine) w1
          /\ requests (trace (snd (apiGetWithCursor engine path cursor p1 w)))
             = (requests (trace w1) ++ [getRequest url bearer])%list
          /\ (sforall is_literal_char path = true ->
              url = BASE_URL ++ path ++ "?cursor=" ++ form_encode cursor)).
Proof.
  split; [reflexivity|].
  intros cfg tok w1 bearer Hp Hc Ht Hb.
  apply (cursor_call path cursor p1 w cfg tok w1 bearer Hp Hc Ht Hb).
Qed.

(** C2. With a non-empty cursor, [listEndpoint] is [apiGetWithCursor];
    without one, or with the empty string, it is [apiGet] with the filter
    bag.  Once the configuration and the token are there, the cursor branch
    makes one GET, whose query string is the one parameter [cursor] (the
    encoded value holds no delimiter that could start another), and the
    filter branch one GET, whose query is made of keys of the bag, all the
    sent entries when the keys are distinct and the numbers safe integers.  A list tool makes one GET
    whose query is the cursor alone or holds no [cursor]: never the cursor
    beside a filter.  Whatever the world, a list tool sends nothing but
    token requests and such queries. *)
Theorem C2_cursor_routing (path : string) (params : bag) (w : World) :
  (forall c, c <> "" ->
     listEndpoint engine path params (Some c) w
     = apiGetWithCursor engine path c None w)
  /\ listEndpoint engine path params None w
     = apiGet engine path (Some params) w
  /\ listEndpoint engine path params (Some "") w
     = apiGet engine path (Some params) w
  /\ (forall c cfg tok w1 bearer,
        c <> "" ->
        plain_path path = true ->
        config w = Some cfg ->
        getAccessToken engine (clientId cfg) (clientSecret cfg) w
        = (Return tok, w1) ->
        ToString tok = Some bearer ->
        exists url,
          href_query url = Some ("cursor=" ++ form_encode c)
          /\ sforall (fun x => negb (is_delimiter x)) (form_encode c) = true
          /\ listEndpoint engine path params (Some c) w
             = bind (fetch (getRequest url bearer)) (received engine) w1
          /\ requests
               (trace (snd (listEndpoint engine path params (Some c) w)))
             = (requests (trace w1) ++ [getRequest url bearer])%list)
  /\ (forall cfg tok w1 bearer,
        plain_path path = true ->
        config w = Some cfg ->
        getAccessToken engine (clientId cfg) (clientSecret cfg) w
        = (Return tok, w1) ->
        ToString tok = Some bearer ->
        exists url l,
          href_query url = query_of l
          /\ (forall k, has_key k l = true -> has_key k params = true)
          /\ (NoDup (map fst params) -> safe_bag params = true ->
              l = sent params)
          /\ listEndpoint engine path params None w
             = bind (fetch (getRequest url bearer)) (received engine) w1
          /\ requests (trace (snd (listEndpoint engine path params None w)))
             = (requests (trace w1) ++ [getRequest url bearer])%list)
  /\ (forall cfg tok w1 bearer,
        plain_path path = true ->
        config w = Some cfg ->
        getAccessToken engine (clientId cfg) (clientSecret cfg) w
        = (Return tok, w1) ->
        ToString tok = Some bearer ->
        exists url,
          listTool engine path params w
          = bind (fetch (getRequest url bearer)) (received engine) w1
          /\ requests (trace (snd (listTool engine path params w)))
             = (requests (trace w1) ++ [getRequest url bearer])%list
          /\ ((exists c, href_query url = Some ("cursor=" ++ form_encode c))
              \/ (exists l, href_query url = query_of l
                            /\ has_key "cursor" l = false)))
  /\ (plain_path path = true ->
      emits (fun r => req_url r = TOKEN_URL
                      \/ (exists c, href_query (req_url r)
                                    = Some ("cursor=" ++ form_encode c))
                      \/ (exists l, href_query (req_url r) = query_of l
                                    /\ has_key "cursor" l = false))
        (listTool engine path params)).
Proof.
  assert (Hroute : forall c, c <> "" ->
            listEndpoint engine path params (Some c) w
            = apiGetWithCursor engine path c None w).
  { intros c Hc. unfold listEndpoint. apply String.eqb_neq in Hc.
    rewrite Hc. reflexivity. }
  assert (Hfilter : forall (b : bag) cfg tok w1 bearer,
            plain_path path = true ->
            config w = Some cfg ->
            getAccessToken engine (clientId cfg) (clientSecret cfg) w
            = (Return tok, w1) ->
            ToString tok = Some bearer ->
            exists url l,
              href_query url = query_of l
              /\ (forall k, has_key k l = true -> has_key k b = true)
              /\ (NoDup (map fst b) -> safe_bag b = true -> l = sent b)
              /\ apiGet engine path (Some b) w
                 = bind (fetch (getRequest url bearer)) (received engine) w1
              /\ requests (trace (snd (apiGet engine path (Some b) w)))
                 = (requests (trace w1) ++ [getRequest url bearer])%list).
  { intros b cfg tok w1 bearer Hp Hc Ht Hb.
    destruct (buildUrl_total path (Some b)) as [url Hu].
    destruct (filter_call path (Some b) w cfg tok w1 bearer url Hu Hc Ht Hb)
      as [Hrun Hreq].
    exists url, (searchParams (fold_left add_entry b (resource engine path))).
    pose proof Hu as Hu'.
    rewrite buildUrl_fold, (URL_parse_plain path Hp) in Hu'.
    injection Hu' as Hu'.
    destruct (fold_tied b (resource engine path) eq_refl) as (I1 & I2 & I3).
    split.
    { rewrite <- Hu'. apply href_query_tied;
        [rewrite I2; apply plain_base|rewrite I3; reflexivity|exact I1]. }
    split.
    { intros k H. apply fold_entries_keys in H. destruct H as [H|H];
        [discriminate|exact H]. }
    split; [|split; [exact Hrun|exact Hreq]].
    intros Hnd _.
    destruct (fold_entries b (resource engine path) Hnd) as (J1 & _).
    { intros k H. discriminate. }
    exact J1. }
  split; [exact Hroute|].
  split; [reflexivity|].
  split; [reflexivity|].
  split.
  { intros c cfg tok w1 bearer Hne Hp Hc Ht Hb. rewrite (Hroute c Hne).
    destruct (cursor_call path c None w cfg tok w1 bearer Hp Hc Ht Hb)
      as (url & Hq & Hrun & Hreq & _).
    exists url. split; [exact Hq|]. split; [apply form_encode_safe|].
    split; [exact Hrun|exact Hreq]. }
  split.
  { intros cfg tok w1 bearer Hp Hc Ht Hb.
    apply (Hfilter params cfg tok w1 bearer Hp Hc Ht Hb). }
  split.
  { intros cfg tok w1 bearer Hp Hc Ht Hb. unfold listTool.
    assert (Hget : exists url,
              apiGet engine path (Some (remove_key "cursor" params)) w
              = bind (fetch (getRequest url bearer)) (received engine) w1
              /\ requests
                   (trace (snd (apiGet engine path
                                  (Some (remove_key "cursor" params)) w)))
                 = (requests (trace w1) ++ [getRequest url bearer])%list
              /\ ((exists c, href_query url = Some ("cursor=" ++ form_encode c))
                  \/ (exists l, href_query url = query_of l
                                /\ has_key "cursor" l = false))).
    { destruct (Hfilter (remove_key "cursor" params) cfg tok w1 bearer
                  Hp Hc Ht Hb) as (url & l & Hq & Hk & _ & Hrun & Hreq).
      exists url. split; [exact Hrun|]. split; [exact Hreq|].
      right. exists l. split; [exact Hq|].
      destruct (has_key "cursor" l) eqn:E; [|reflexivity].
      apply Hk in E. rewrite has_key_remove in E. discriminate. }
    destruct (assoc "cursor" params) as [[|c| | |]|];
      try exact Hget.
    unfold listEndpoint. destruct (c =? "")%string eqn:Ec; cbn [negb];
      [exact Hget|].
    destruct (cursor_call path c None w cfg tok w1 bearer Hp Hc Ht Hb)
      as (url & Hq & Hrun & Hreq & _).
    exists url. split; [exact Hrun|]. split; [exact Hreq|].
    left. exists c. exact Hq. }
  intros Hp. unfold listTool, listEndpoint.
  assert (Hget : emits
            (fun r => req_url r = TOKEN_URL
                      \/ (exists c, href_query (req_url r)
                                    = Some ("cursor=" ++ form_encode c))
                      \/ (exists l, href_query (req_url r) = query_of l
                                    /\ has_key "cursor" l = false))
            (apiGet engine path (Some (remove_key "cursor" params)))).
  { eapply emits_weaken; [|apply emits_apiGet].
    intros r [H|H]; [left; exact H|right; right].
    destruct (buildUrl_query path _ _ Hp H) as [l [Hq Hk]].
    exists l. split; [exact Hq|].
    destruct (has_key "cursor" l) eqn:E; [|reflexivity].
    apply Hk in E. rewrite has_key_remove in E. discriminate. }
  destruct (assoc "cursor" params) as [[|c| | |]|]; try exact Hget.
  destruct (negb (c =? "")%string); [|exact Hget].
  eapply emits_weaken; [|apply emits_apiGetWithCursor].
  intros r [H|[u [Hu Hr]]]; [left; exact H|right; left].
  rewrite (URL_parse_plain path Hp) in Hu. injection Hu as <-.
  exists c. rewrite Hr. apply cursor_url.
Qed.

Lemma is_sent_spec x :
  is_sent x = true <-> x <> PUndefined /\ x <> PString "".
Proof.
  destruct x as [|s|n|b|d]; simpl.
  - split; [discriminate|intros [H _]; congruence].
  - destruct (s =? "")%string eqn:E; simpl.
    + apply String.eqb_eq in E. subst.
      split; [discriminate|intros [_ H]; congruence].
    + apply String.eqb_neq in E.
      split; [intros _; split; congruence|reflexivity].
  - split; [intros _; split; discriminate|reflexivity].
  - split; [intros _; split; discriminate|reflexivity].
  - split; [intros _; split; discriminate|reflexivity].
Qed.

Lemma buildUrl_sent path (b : bag) url :
  plain_path path = true -> NoDup (map fst b) ->
  buildUrl engine path (Some b) = Some url ->
  href_query url = query_of (sent b).
Proof.
  intros Hp Hnd Hu. pose proof (buildUrl_plain path b Hp Hnd) as Hb.
  rewrite Hu in Hb. injection Hb as ->.
  unfold query_of. destruct (sent b) as [|p l] eqn:E.
  - rewrite append_nil_r. apply href_query_none, plain_base.
  - apply (href_query_some (url_base (resource engine path)));
      [apply plain_base|apply serialize_no_hash].
Qed.

(** C3. For a bag with distinct keys, whose numbers are spelled as
    JavaScript spells them, and a path without query: the URL [buildUrl]
    makes, which is the URL of the one GET of [apiGet] once the
    configuration and the token are there, has for query string the
    serialization of the entries whose value is neither [undefined] nor the
    empty string, in order, each value stringified; the others are not
    there.  The example bag gives [c=x&d=5&e=false]; a number spelled
    [1e+21] goes out as [1e%2B21], one spelled [0.5] as it is. *)
Theorem C3_filter_serialization (path : string) (b : bag) :
  plain_path path = true -> NoDup (map fst b) -> safe_bag b = true ->
  (exists url,
     buildUrl engine path (Some b) = Some url
     /\ href_query url = query_of (sent b)
     /\ forall w w1 cfg tok bearer,
          config w = Some cfg ->
          getAccessToken engine (clientId cfg) (clientSecret cfg) w
          = (Return tok, w1) ->
          ToString tok = Some bearer ->
          apiGet engine path (Some b) w
          = bind (fetch (getRequest url bearer)) (received engine) w1
          /\ requests (trace (snd (apiGet engine path (Some b) w)))
             = (requests (trace w1) ++ [getRequest url bearer])%list)
  /\ emits (fun r => req_url r = TOKEN_URL
                     \/ href_query (req_url r) = query_of (sent b))
       (apiGet engine path (Some b))
  /\ (forall k v,
        In (k, v) (sent b) <->
        exists x, In (k, x) b /\ x <> PUndefined /\ x <> PString ""
                  /\ v = String_of x)
  /\ String_of (PNumber (Num 5)) = "5"
  /\ String_of (PBoolean false) = "false"
  /\ String_of (PBoolean true) = "true"
  /\ option_map href_query (buildUrl engine "/jobs" (Some example_bag))
     = Some (Some "c=x&d=5&e=false")
  /\ option_map href_query
       (buildUrl engine "/jobs"
          (Some [("n", PDouble "1e+21"); ("r", PDouble "0.5")]))
     = Some (Some "n=1e%2B21&r=0.5").
Proof.
  intros Hp Hnd _.
  split.
  { destruct (buildUrl_total path (Some b)) as [url Hu]. exists url.
    split; [exact Hu|].
    split; [apply (buildUrl_sent path b url Hp Hnd Hu)|].
    intros w w1 cfg tok bearer Hc Ht Hb.
    apply (filter_call path (Some b) w cfg tok w1 bearer url Hu Hc Ht Hb). }
  split.
  { eapply emits_weaken; [|apply emits_apiGet].
    intros r [H|H]; [left; exact H|right].
    apply (buildUrl_sent path b _ Hp Hnd H). }
  split.
  { intros k v. unfold sent. rewrite in_map_iff. split.
    - intros [[k' x] [E Hin]]. cbn [fst snd] in E. injection E as -> <-.
      apply filter_In in Hin. destruct Hin as [Hin Hs]. cbn [snd] in Hs.
      apply is_sent_spec in Hs. exists x. tauto.
    - intros [x (Hin & H1 & H2 & ->)]. exists (k, x). split; [reflexivity|].
      apply filter_In. split; [exact Hin|]. apply is_sent_spec. auto. }
  repeat split; reflexivity.
Qed.

(** ** Link headers *)

Lemma skip_ws_suffix_upto n : forall s,
  (String.length s <= n)%nat -> exists pre, s = pre ++ skip_ws s.
Proof.
  induction n as [|n IH]; intros s Hn.
  - destruct s; [exists ""; reflexivity|simpl in Hn; lia].
  - destruct s as [|c s1]; [exists ""; reflexivity|].
    cbn [skip_ws]. simpl in Hn.
    destruct (is_ascii_ws c).
    { destruct (IH s1 ltac:(lia)) as [pre E].
      exists (String c pre). simpl. rewrite <- E. reflexivity. }
    destruct s1 as [|d s2]; [exists ""; reflexivity|]. simpl in Hn.
    destruct (is_ws2 c d).
    { destruct (IH s2 ltac:(lia)) as [pre E].
      exists (String c (String d pre)). simpl. rewrite <- E. reflexivity. }
    destruct s2 as [|e s3]; [exists ""; reflexivity|]. simpl in Hn.
    destruct (is_ws3 c d e); [|exists ""; reflexivity].
    destruct (IH s3 ltac:(lia)) as [pre E].
    exists (String c (String d (String e pre))). simpl. rewrite <- E.
    reflexivity.
Qed.

Lemma skip_ws_suffix s : exists pre, s = pre ++ skip_ws s.
Proof. apply (skip_ws_suffix_upto (String.length s)). lia. Qed.



Lemma skip_ws_app ws s :
  sforall is_ascii_ws ws = true -> skip_ws (ws ++ s) = skip_ws s.
Proof.
  induction ws as [|c ws IH]; [reflexivity|].
  cbn [sforall]. intros H. apply andb_true_iff in H. destruct H as [H1 H2].
  change (String c ws ++ s) with (String c (ws ++ s)).
  cbn [skip_ws]. rewrite H1. apply IH, H2.
Qed.

Lemma next_at_head u ws rest :
  u <> "" ->
  sforall (fun x => negb (Ascii.eqb ">" x)) u = true ->
  sforall is_ascii_ws ws = true ->
  next_at ("<" ++ u ++ ">;" ++ ws ++ REL_NEXT ++ rest) = Some u.
Proof.
  intros Hu Hgt Hws. unfold next_at.
  change (expect "<" ("<" ++ u ++ ">;" ++ ws ++ REL_NEXT ++ rest))
    with (Some (u ++ String ">" (String ";" (ws ++ REL_NEXT ++ rest)))).
  cbv beta iota.
  rewrite (split_at_app (Ascii.eqb ">") u ">"
             (String ";" (ws ++ REL_NEXT ++ rest)) Hgt eq_refl).
  apply String.eqb_neq in Hu. rewrite Hu.
  cbn [expect]. rewrite Ascii.eqb_refl.
  rewrite (skip_ws_app ws _ Hws).
  change (skip_ws (REL_NEXT ++ rest)) with (REL_NEXT ++ rest).
  change ("rel=" ++ DQ ++ "next" ++ DQ) with REL_NEXT.
  rewrite starts_with_app. reflexivity.
Qed.






(** C10. When the link header has a [rel="next"] entry whose URL parses but
    carries no [cursor] parameter, [apiGet] and [apiGetWithCursor] return
    [nextCursor = null]. *)
Theorem C10_next_without_cursor (w w1 : World) (cfg : ClientConfig)
  (tok : value) (bearer : string) (res : Response) (d : value)
  (next : string) (u : URL) :
  config w = Some cfg ->
  getAccessToken engine (clientId cfg) (clientSecret cfg) w = (Return tok, w1) ->
  ToString tok = Some bearer ->
  res_ok res = true ->
  res_json res = Some d ->
  parseLinkHeader (res_link res) = Some next ->
  URL_parse engine next = Some u ->
  has_key "cursor" (searchParams u) = false ->
  (forall path params url,
     buildUrl engine path params = Some url ->
     network w1 (trace w1) (getRequest url bearer) = Some res ->
     fst (apiGet engine path params w)
     = Return {| data := d; nextCursor := None |})
  /\ (forall path cursor perPage u0,
        URL_parse engine (BASE_URL ++ path) = Some u0 ->
        network w1 (trace w1)
          (getRequest (URL_toString (URL_set "cursor" cursor u0)) bearer)
        = Some res ->
        fst (apiGetWithCursor engine path cursor perPage w)
        = Return {| data := d; nextCursor := None |}).
Proof.
  intros Hc Ht Hb Hok Hj Hl Hp Hk.
  assert (Hget : params_get "cursor" (searchParams u) = None).
  { unfold params_get. unfold has_key in Hk.
    destruct (assoc "cursor" (searchParams u)); [discriminate|reflexivity]. }
  split.
  - intros path params url Hu Hn.
    rewrite (apiGet_run path params w cfg tok w1 url bearer Hc Ht Hu Hb).
    rewrite (received_next _ res d next u w1 Hn Hok Hj Hl Hp).
    rewrite Hget. reflexivity.
  - intros path cursor perPage u0 Hu Hn.
    rewrite (apiGetWithCursor_run path cursor perPage w cfg tok w1 u0 bearer
               Hc Ht Hu Hb).
    rewrite (received_next _ res d next u w1 Hn Hok Hj Hl Hp).
    rewrite Hget. reflexivity.
Qed.

(** ** Failures and writes *)

(** C5. When the status of the response is outside 200-299, [apiGet],
    [apiGetWithCursor] and [apiPost] throw an error whose message holds the
    status code, the status text and the body as text.  After the request
    the trace holds the reading of the body as text and nothing else: the
    body is not decoded as JSON and no second request is made. *)
Theorem C5_error_propagation (w w1 : World) (cfg : ClientConfig) (tok : value)
  (bearer : string) (res : Response) :
  config w = Some cfg ->
  getAccessToken engine (clientId cfg) (clientSecret cfg) w = (Return tok, w1) ->
  ToString tok = Some bearer ->
  res_ok res = false ->
  (forall path params url,
     buildUrl engine path params = Some url ->
     network w1 (trace w1) (getRequest url bearer) = Some res ->
     apiGet engine path params w
     = (Throw (apiError res (res_text res)),
        log EvText (log (EvFetch (getRequest url bearer)) w1)))
  /\ (forall path cursor perPage u,
        URL_parse engine (BASE_URL ++ path) = Some u ->
        network w1 (trace w1)
          (getRequest (URL_toString (URL_set "cursor" cursor u)) bearer)
        = Some res ->
        apiGetWithCursor engine path cursor perPage w
        = (Throw (apiError res (res_text res)),
           log EvText
             (log (EvFetch
                     (getRequest (URL_toString (URL_set "cursor" cursor u))
                        bearer)) w1)))
  /\ (forall path body,
        network w1 (trace w1)
          (postRequest (BASE_URL ++ path) bearer (postBody body))
        = Some res ->
        apiPost engine path body w
        = (Throw (apiError res (res_text res)),
           log EvText
             (log (EvFetch
                     (postRequest (BASE_URL ++ path) bearer (postBody body)))
                w1)))
  /\ (exists m,
        apiError res (res_text res) = Error m
        /\ includes m (dec (res_status res))
        /\ includes m (res_statusText res)
        /\ includes m (res_text res)).
Proof.
  intros Hc Ht Hb Hok.
  split.
  { intros path params url Hu Hn.
    rewrite (apiGet_run path params w cfg tok w1 url bearer Hc Ht Hu Hb).
    apply received_failure; assumption. }
  split.
  { intros path cursor perPage u Hu Hn.
    rewrite (apiGetWithCursor_run path cursor perPage w cfg tok w1 u bearer
               Hc Ht Hu Hb).
    apply received_failure; assumption. }
  split.
  { intros path body Hn.
    rewrite (apiPost_run path body w cfg tok w1 bearer Hc Ht Hb), Hn.
    cbv zeta. rewrite Hok. reflexivity. }
  eexists. split; [reflexivity|].
  split; [apply includes_mid|].
  split.
  - apply includes_app_r, includes_app_r, includes_mid.
  - apply includes_app_r, includes_app_r, includes_app_r, includes_app_r.
    apply includes_app_r. exists "", "". rewrite append_nil_r. reflexivity.
Qed.

(** C6. When the status is 204, [apiPost] returns [{data: {}, nextCursor:
    null}] and the trace ends with the request: the body is not read.  And
    whenever [apiPost] returns, [nextCursor] is [null]. *)
Theorem C6_post_no_content (path : string) (body : option value) (w : World) :
  (forall cfg tok w1 bearer res,
     config w = Some cfg ->
     getAccessToken engine (clientId cfg) (clientSecret cfg) w
     = (Return tok, w1) ->
     ToString tok = Some bearer ->
     network w1 (trace w1)
       (postRequest (BASE_URL ++ path) bearer (postBody body)) = Some res ->
     res_status res = 204 ->
     apiPost engine path body w
     = (Return {| data := VObj []; nextCursor := None |},
        log (EvFetch (postRequest (BASE_URL ++ path) bearer (postBody body)))
          w1))
  /\ (forall r w', apiPost engine path body w = (Return r, w') ->
                   nextCursor r = None).
Proof.
  split.
  - intros cfg tok w1 bearer res Hc Ht Hb Hn Hs.
    rewrite (apiPost_run path body w cfg tok w1 bearer Hc Ht Hb), Hn.
    cbv zeta. unfold res_ok. rewrite Hs. reflexivity.
  - intros r w'. unfold apiPost.
    unfold bind at 1. destruct (getConfig w) as [[cfg|e] w0]; [|discriminate].
    unfold bind at 1.
    destruct (getAccessToken engine (clientId cfg) (clientSecret cfg) w0)
      as [[tok|e] w1]; [|discriminate].
    unfold bind at 1. destruct (ToString tok) as [bearer|];
      [|discriminate].
    unfold orTypeError at 1, ret at 1.
    unfold bind at 1, fetch.
    match goal with
    | |- context [network w1 (trace w1) ?r] =>
        destruct (network w1 (trace w1) r) as [res|]; [|discriminate]
    end.
    destruct (negb (res_ok res)); [discriminate|].
    destruct (res_status res =? 204); [intros [= <- _]; reflexivity|].
    unfold bind, json. destruct (res_json res); [|discriminate].
    intros [= <- _]. reflexivity.
Qed.

(** C9. [apiGet] does not look at the keys of its bag.  For a bag with
    distinct keys that holds [cursor] beside another entry that is sent, and
    a path without query, the query string of the request carries both;
    nothing is thrown for it, and the call returns what the server
    answers. *)
Theorem C9_cursor_in_filter_bag (path : string) (b : bag) (c k : string)
  (v : param) :
  plain_path path = true ->
  NoDup (map fst b) ->
  In ("cursor", PString c) b -> c <> "" ->
  In (k, v) b -> k <> "cursor" -> is_sent v = true ->
  exists url,
    buildUrl engine path (Some b) = Some url
    /\ href_query url = Some (urlencoded_serialize (sent b))
    /\ In ("cursor", c) (sent b)
    /\ In (k, String_of v) (sent b)
    /\ (forall w w1 cfg tok bearer res d,
          config w = Some cfg ->
          getAccessToken engine (clientId cfg) (clientSecret cfg) w
          = (Return tok, w1) ->
          ToString tok = Some bearer ->
          network w1 (trace w1) (getRequest url bearer) = Some res ->
          res_ok res = true -> res_json res = Some d ->
          res_link res = None ->
          apiGet engine path (Some b) w
          = (Return {| data := d; nextCursor := None |},
             log EvJson (log (EvFetch (getRequest url bearer)) w1))).
Proof.
  intros Hp Hnd Hcur Hc Hkv Hk Hs.
  destruct (buildUrl_total path (Some b)) as [url Hu].
  pose proof (buildUrl_sent path b url Hp Hnd Hu) as Hq.
  assert (Hin : In ("cursor", c) (sent b)).
  { apply (In_sent "cursor" (PString c) b Hcur). simpl.
    apply negb_true_iff, String.eqb_neq, Hc. }
  exists url. split; [exact Hu|]. split.
  { rewrite Hq. unfold query_of. destruct (sent b); [destruct Hin|reflexivity]. }
  split; [exact Hin|]. split; [apply In_sent; assumption|].
  intros w w1 cfg tok bearer res d Hcf Ht Hb Hn Hok Hj Hl.
  rewrite (apiGet_run path (Some b) w cfg tok w1 url bearer Hcf Ht Hu Hb).
  apply (received_last _ res d w1 Hn Hok Hj). rewrite Hl. reflexivity.
Qed.

End Properties.

(* ===================================================================== *)
(** * Part V.  The properties at work                                     *)
(* ===================================================================== *)

(** A token cached until 100 s is reused at 39.999 s; at 40 s, exactly 60 s
    before the expiry, one exchange is made and the cache holds the new
    token with the epoch milliseconds of 2030-01-01. *)
Lemma C1_witness :
  getAccessToken strict_engine "id" "secret"
    (cached_world 39999 (always good_token))
  = (Return (VStr "tok"), cached_world 39999 (always good_token))
  /\ requests
       (trace (snd (getAccessToken strict_engine "id" "secret"
                      (cached_world 40000 (always good_token)))))
     = [tokenRequest "id" "secret"]
  /\ fst (getAccessToken strict_engine "id" "secret"
            (cached_world 40000 (always good_token)))
     = Return (VStr "fresh")
  /\ tokenExpiresAt
       (snd (getAccessToken strict_engine "id" "secret"
               (cached_world 40000 (always good_token))))
     = Num 1893456000000.
Proof.
  destruct (C1_token_reuse_and_refresh strict_engine "id" "secret"
              (cached_world 39999 (always good_token))) as [H1 _].
  destruct (C1_token_reuse_and_refresh strict_engine "id" "secret"
              (cached_world 40000 (always good_token)))
    as (_ & H2 & H3 & H4).
  assert (Hstale : ~ usable (cached_world 40000 (always good_token))).
  { apply (H3 100000); [reflexivity|simpl; lia]. }
  split.
  { apply H1. split; [reflexivity|].
    exists 100000. split; [reflexivity|simpl; lia]. }
  split; [exact (H2 Hstale)|].
  destruct (H4 good_token
              [("token_type", VStr "Bearer"); ("access_token", VStr "fresh");
               ("expires_at", VStr "2030-01-01T00:00:00.000Z")]
              "fresh" "2030-01-01T00:00:00.000Z" 1893456000000 Hstale
              eq_refl eq_refl eq_refl eq_refl eq_refl eq_refl)
    as (R1 & _ & R3).
  split; [exact R1|exact R3].
Defined.

(** A list call with the cursor [a b] is the cursor call and makes one GET,
    with the query [cursor=a+b]; the list tool on a bag with a status filter
    and that cursor makes the same GET, and with the status filter alone one
    GET with the query [status=open]. *)
Lemma C2_witness :
  listEndpoint strict_engine "/jobs" [("status", PString "open")] (Some "a b")
    (cached_world 0 (always page_with_next))
  = apiGetWithCursor strict_engine "/jobs" "a b" None
      (cached_world 0 (always page_with_next))
  /\ (exists url,
        href_query url = Some "cursor=a+b"
        /\ requests
             (trace (snd (listEndpoint strict_engine "/jobs"
                            [("status", PString "open")] (Some "a b")
                            (cached_world 0 (always page_with_next)))))
           = [getRequest url "tok"])
  /\ (exists url l,
        href_query url = query_of l
        /\ l = [("status", "open")]
        /\ requests
             (trace (snd (listEndpoint strict_engine "/jobs"
                            [("status", PString "open")] None
                            (cached_world 0 (always page_with_next)))))
           = [getRequest url "tok"])
  /\ (exists url,
        requests
          (trace (snd (listTool strict_engine "/jobs"
                         [("status", PString "open"); ("cursor", PString "a b")]
                         (cached_world 0 (always page_with_next)))))
        = [getRequest url "tok"]
        /\ ((exists c, href_query url = Some ("cursor=" ++ form_encode c))
            \/ (exists l, href_query url = query_of l
                          /\ has_key "cursor" l = false))).
Proof.
  destruct (C2_cursor_routing strict_engine "/jobs"
              [("status", PString "open")]
              (cached_world 0 (always page_with_next)))
    as (H1 & _ & _ & H4 & H5 & _).
  destruct (C2_cursor_routing strict_engine "/jobs"
              [("status", PString "open"); ("cursor", PString "a b")]
              (cached_world 0 (always page_with_next)))
    as (_ & _ & _ & _ & _ & H6 & _).
  split; [apply H1; discriminate|].
  split.
  { destruct (H4 "a b" (mkConfig "id" "secret") (VStr "tok")
                (cached_world 0 (always page_with_next)) "tok"
                ltac:(discriminate) eq_refl eq_refl eq_refl eq_refl)
      as (url & Hq & _ & _ & Hreq).
    exists url. split; [exact Hq|exact Hreq]. }
  split.
  { destruct (H5 (mkConfig "id" "secret") (VStr "tok")
                (cached_world 0 (always page_with_next)) "tok"
                eq_refl eq_refl eq_refl eq_refl)
      as (url & l & Hq & _ & Hl & _ & Hreq).
    exists url, l. split; [exact Hq|]. split; [|exact Hreq].
    apply Hl; [repeat constructor; simpl; intuition discriminate|reflexivity]. }
  destruct (H6 (mkConfig "id" "secret") (VStr "tok")
              (cached_world 0 (always page_with_next)) "tok"
              eq_refl eq_refl eq_refl eq_refl)
    as (url & _ & Hreq & Hq).
  exists url. split; [exact Hreq|exact Hq].
Defined.

Lemma example_bag_keys : NoDup (map fst example_bag).
Proof.
  repeat constructor; simpl; intuition discriminate.
Qed.

(** The example bag on [/jobs]: the URL, and the one GET of [apiGet]. *)
Lemma C3_witness :
  exists url,
    buildUrl strict_engine "/jobs" (Some example_bag) = Some url
    /\ href_query url = Some "c=x&d=5&e=false"
    /\ requests
         (trace (snd (apiGet strict_engine "/jobs" (Some example_bag)
                        (cached_world 0 (always page_with_next)))))
       = [getRequest url "tok"].
Proof.
  destruct (C3_filter_serialization strict_engine "/jobs" example_bag
              eq_refl example_bag_keys eq_refl) as [[url (Hu & Hq & Hrun)] _].
  exists url. split; [exact Hu|]. split; [exact Hq|].
  exact (proj2 (Hrun (cached_world 0 (always page_with_next))
                  (cached_world 0 (always page_with_next))
                  (mkConfig "id" "secret") (VStr "tok") "tok"
                  eq_refl eq_refl eq_refl)).
Defined.



(** A GET answered 404 with the body [not found]. *)
Lemma C5_witness :
  apiGet strict_engine "/jobs/7" None (cached_world 0 (always not_found))
  = (Throw (Error "Greenhouse API error: 404 Not Found - not found"),
     log EvText
       (log (EvFetch (getRequest "https://harvest.greenhouse.io/v3/jobs/7"
                        "tok"))
          (cached_world 0 (always not_found)))).
Proof.
  destruct (C5_error_propagation strict_engine
              (cached_world 0 (always not_found))
              (cached_world 0 (always not_found))
              (mkConfig "id" "secret") (VStr "tok") "tok" not_found
              eq_refl eq_refl eq_refl eq_refl) as [H _].
  exact (H "/jobs/7" None "https://harvest.greenhouse.io/v3/jobs/7"
           eq_refl eq_refl).
Defined.

(** A rejection answered 204. *)
Lemma C6_witness :
  fst (apiPost strict_engine "/applications/7/reject"
         (Some (VObj [("rejection_reason_id", VNum (Num 3))]))
         (cached_world 0 (always no_content)))
  = Return {| data := VObj []; nextCursor := None |}
  /\ decodes
       (trace (snd (apiPost strict_engine "/applications/7/reject"
                      (Some (VObj [("rejection_reason_id", VNum (Num 3))]))
                      (cached_world 0 (always no_content)))))
     = false.
Proof.
  destruct (C6_post_no_content strict_engine "/applications/7/reject"
              (Some (VObj [("rejection_reason_id", VNum (Num 3))]))
              (cached_world 0 (always no_content))) as [H _].
  rewrite (H (mkConfig "id" "secret") (VStr "tok")
             (cached_world 0 (always no_content)) "tok" no_content
             eq_refl eq_refl eq_refl eq_refl eq_refl).
  split; reflexivity.
Defined.

(** C7, as stated, fails: the token endpoint answers 200 with a JSON body
    that has no [expires_at], or no field at all, and [getAccessToken]
    throws nothing; with [access_token] there, the caller gets it. *)
Lemma C7_counterexample :
  res_ok short_token = true
  /\ res_json short_token = Some (VObj [("access_token", VStr "abc")])
  /\ fst (getAccessToken strict_engine "id" "secret"
            (start 0 (always short_token)))
     = Return (VStr "abc")
  /\ fst (getAccessToken strict_engine "id" "secret"
            (start 0 (always (json_response None (VObj [])))))
     = Return VUndefined
  /\ ~ (exists e, fst (getAccessToken strict_engine "id" "secret"
                         (start 0 (always short_token))) = Throw e).
Proof.
  split; [reflexivity|]. split; [reflexivity|]. split; [reflexivity|].
  split; [reflexivity|]. intros [e H]. discriminate H.
Qed.

Lemma start_not_usable now net : ~ usable (start now net).
Proof. intros [H _]. discriminate H. Qed.

(** The body without [expires_at], from a cold start: the token is
    returned and the expiry is [NaN].  The body whose [expires_at] has no
    primitive value: a TypeError, after [abc] was cached. *)
Lemma C7_witness :
  (fst (getAccessToken strict_engine "id" "secret"
          (start 0 (always short_token)))
   = Return (VStr "abc")
   /\ tokenExpiresAt
        (snd (getAccessToken strict_engine "id" "secret"
                (start 0 (always short_token))))
      = NaN)
  /\ getAccessToken strict_engine "id" "secret"
       (start 0 (always hostile_token))
     = (Throw TypeError,
        set_cachedToken (VStr "abc")
          (log EvJson
             (log (EvFetch (tokenRequest "id" "secret"))
                (start 0 (always hostile_token))))).
Proof.
  split.
  - destruct (C7_malformed_body_amended strict_engine "id" "secret"
                (start 0 (always short_token)) short_token
                (start_not_usable 0 (always short_token)) eq_refl eq_refl)
      as (_ & _ & _ & _ & H & _).
    destruct (H [("access_token", VStr "abc")] eq_refl eq_refl)
      as (R1 & R2 & _).
    split; [exact R1|exact R2].
  - destruct (C7_malformed_body_amended strict_engine "id" "secret"
                (start 0 (always hostile_token)) hostile_token
                (start_not_usable 0 (always hostile_token)) eq_refl eq_refl)
      as (_ & _ & H & _).
    destruct (H (VObj [("access_token", VStr "abc");
                       ("expires_at", VObj [("toString", VNum (Num 1))])])
                eq_refl ltac:(discriminate) ltac:(discriminate))
      as (R & _).
    exact (R eq_refl).
Defined.

(** Page sizes 10 and 500 on the same cursor. *)
Lemma C8_witness :
  requests
    (trace (snd (apiGetWithCursor strict_engine "/jobs" "abc123"
                   (Some (Num 10))
                   (cached_world 0 (always page_with_next)))))
  = [getRequest "https://harvest.greenhouse.io/v3/jobs?cursor=abc123" "tok"]
  /\ apiGetWithCursor strict_engine "/jobs" "abc123" (Some (Num 10))
       (cached_world 0 (always page_with_next))
     = apiGetWithCursor strict_engine "/jobs" "abc123" (Some (Num 500))
         (cached_world 0 (always page_with_next)).
Proof.
  destruct (C8_perPage_unused strict_engine "/jobs" "abc123"
              (Some (Num 10)) (Some (Num 500))
              (cached_world 0 (always page_with_next))) as [H1 H2].
  split; [|exact H1].
  destruct (H2 (mkConfig "id" "secret") (VStr "tok")
              (cached_world 0 (always page_with_next)) "tok"
              eq_refl eq_refl eq_refl eq_refl)
    as (url & _ & _ & Hreq & Hurl).
  rewrite Hreq, (Hurl eq_refl). reflexivity.
Defined.

Lemma mixed_bag_keys :
  NoDup (map fst [("cursor", PString "abc"); ("status", PString "open")]).
Proof.
  repeat constructor; simpl; intuition discriminate.
Qed.

(** A bag holding a cursor and a status. *)
Lemma C9_witness :
  exists url,
    buildUrl strict_engine "/jobs"
      (Some [("cursor", PString "abc"); ("status", PString "open")])
    = Some url
    /\ href_query url = Some "cursor=abc&status=open".
Proof.
  destruct (C9_cursor_in_filter_bag strict_engine "/jobs"
              [("cursor", PString "abc"); ("status", PString "open")]
              "abc" "status" (PString "open")
              eq_refl mixed_bag_keys
              (or_introl eq_refl) ltac:(discriminate)
              (or_intror (or_introl eq_refl)) ltac:(discriminate) eq_refl)
    as [url (Hu & Hq & _)].
  exists url. split; [exact Hu|exact Hq].
Defined.

(** A next link with a page number instead of a cursor. *)
Lemma C10_witness :
  fst (apiGet strict_engine "/jobs" None
         (cached_world 0 (always page_without_cursor)))
  = Return {| data := VArr []; nextCursor := None |}.
Proof.
  destruct (C10_next_without_cursor strict_engine
              (cached_world 0 (always page_without_cursor))
              (cached_world 0 (always page_without_cursor))
              (mkConfig "id" "secret") (VStr "tok") "tok"
              page_without_cursor (VArr [])
              "https://host/v3/jobs?page=2"
              {| url_base := "https://host/v3/jobs";
                 url_query := Some "page=2";
                 url_fragment := None;
                 searchParams := [("page", "2")] |}
              eq_refl eq_refl eq_refl eq_refl eq_refl eq_refl eq_refl eq_refl)
    as [H _].
  exact (H "/jobs" None "https://harvest.greenhouse.io/v3/jobs"
           eq_refl eq_refl).
Defined.

(* ===================================================================== *)
(** * Part VI.  More of the program                                       *)
(* ===================================================================== *)

Lemma calls_silent {A : Type} (c : M A) :
  (forall w, trace (snd (c w)) = trace w) -> calls 0 c.
Proof.
  intros H w. exists []. rewrite H, app_nil_r. split; [reflexivity|simpl; lia].
Qed.

Lemma calls_fetch r : calls 1 (fetch r).
Proof.
  intros w. exists [EvFetch r]. unfold fetch.
  destruct (network w (trace w) r); simpl; (split; [reflexivity|lia]).
Qed.

Lemma calls_text res : calls 0 (text res).
Proof. intros w. exists [EvText]. split; [reflexivity|simpl; lia]. Qed.

Lemma calls_json res : calls 0 (json res).
Proof.
  intros w. exists [EvJson]. unfold json.
  destruct (res_json res); (split; [reflexivity|simpl; lia]).
Qed.

Lemma calls_orTypeError {A : Type} (o : option A) : calls 0 (orTypeError o).
Proof. destruct o; apply calls_silent; reflexivity. Qed.

Lemma calls_bind {A B : Type} n m (c : M A) (k : A -> M B) :
  calls n c -> (forall a, calls m (k a)) -> calls (n + m) (bind c k).
Proof.
  intros Hc Hk w. unfold bind. destruct (Hc w) as [n1 [E1 F1]].
  destruct (c w) as [[a|e] w1]; simpl in *.
  - destruct (Hk a w1) as [n2 [E2 F2]]. exists (n1 ++ n2)%list.
    rewrite E2, E1, app_assoc, requests_app, length_app.
    split; [reflexivity|lia].
  - exists n1. split; [exact E1|lia].
Qed.

Lemma calls_le {A : Type} n m (c : M A) : (n <= m)%nat -> calls n c -> calls m c.
Proof.
  intros Hle Hc w. destruct (Hc w) as [new [E F]]. exists new.
  split; [exact E|lia].
Qed.

Section More.

Variable engine : Engine.

Lemma calls_getAccessToken id secret :
  calls 1 (getAccessToken engine id secret).
Proof.
  unfold getAccessToken.
  apply (calls_bind 0 1); [apply calls_silent; reflexivity|intros tok].
  apply (calls_bind 0 1); [apply calls_silent; reflexivity|intros expiry].
  apply (calls_bind 0 1); [apply calls_silent; reflexivity|intros now].
  destruct (truthy tok && num_lt (Num now) (num_sub expiry 60000)).
  { apply (calls_le 0 1); [lia|]. apply calls_silent. reflexivity. }
  apply (calls_bind 1 0); [apply calls_fetch|intros res].
  destruct (negb (res_ok res)).
  - apply (calls_bind 0 0); [apply calls_text|intros body].
    apply calls_silent. reflexivity.
  - apply (calls_bind 0 0); [apply calls_json|intros d].
    apply (calls_bind 0 0); [apply calls_orTypeError|intros a].
    apply (calls_bind 0 0); [apply calls_silent; reflexivity|intros _].
    apply (calls_bind 0 0); [apply calls_orTypeError|intros ea].
    apply (calls_bind 0 0); [apply calls_orTypeError|intros t].
    apply (calls_bind 0 0); [apply calls_silent; reflexivity|intros _].
    apply calls_silent. reflexivity.
Qed.

Lemma calls_getConfig : calls 0 getConfig.
Proof.
  unfold getConfig.
  apply (calls_bind 0 0); [apply calls_silent; reflexivity|intros [cfg|]];
    apply calls_silent; reflexivity.
Qed.

Lemma calls_received res : calls 0 (received engine res).
Proof.
  unfold received. destruct (negb (res_ok res)).
  - apply (calls_bind 0 0); [apply calls_text|intros body].
    apply calls_silent. reflexivity.
  - apply (calls_bind 0 0); [apply calls_json|intros d].
    apply (calls_bind 0 0); [|intros c; apply calls_silent; reflexivity].
    unfold cursorOf. destruct (parseLinkHeader (res_link res)) as [u|];
      [|apply calls_silent; reflexivity].
    destruct (u =? "")%string; [apply calls_silent; reflexivity|].
    apply (calls_bind 0 0); [apply calls_orTypeError|intros parsed].
    apply calls_silent. reflexivity.
Qed.

(** X1. Before [configure], [apiGet], [apiGetWithCursor] and [apiPost] throw
    the configuration error and leave the world as it was: no token exchange
    and no request. *)
Theorem unconfigured_fails_fast (w : World) (path cursor : string)
  (params : option bag) (perPage : option number) (body : option value) :
  config w = None ->
  let failure :=
    (Throw (Error "Greenhouse client not configured. Set GREENHOUSE_CLIENT_ID and GREENHOUSE_CLIENT_SECRET."),
     w) in
  apiGet engine path params w = failure
  /\ apiGetWithCursor engine path cursor perPage w = failure
  /\ apiPost engine path body w = failure.
Proof.
  intros Hc. cbv zeta.
  unfold apiGet, apiGetWithCursor, apiPost, getConfig, bind, read, throw.
  rewrite Hc. auto.
Qed.

(** X2. When [getAccessToken] throws, the three calls throw the same error
    from the same world: the resource is not requested. *)
Theorem token_failure_propagates (w w1 : World) (cfg : ClientConfig) (e : exn)
  (path cursor : string) (params : option bag) (perPage : option number)
  (body : option value) :
  config w = Some cfg ->
  getAccessToken engine (clientId cfg) (clientSecret cfg) w = (Throw e, w1) ->
  apiGet engine path params w = (Throw e, w1)
  /\ apiGetWithCursor engine path cursor perPage w = (Throw e, w1)
  /\ apiPost engine path body w = (Throw e, w1).
Proof.
  intros Hc Ht. split; [|split].
  - unfold apiGet. unfold bind at 1. rewrite (getConfig_run w cfg Hc).
    unfold bind at 1. rewrite Ht. reflexivity.
  - unfold apiGetWithCursor. unfold bind at 1.
    rewrite (getConfig_run w cfg Hc).
    unfold bind at 1. rewrite Ht. reflexivity.
  - unfold apiPost. unfold bind at 1. rewrite (getConfig_run w cfg Hc).
    unfold bind at 1. rewrite Ht. reflexivity.
Qed.

(** X3. When the token endpoint answers outside 200-299, [getAccessToken]
    reads the body as text and throws an error holding status, status text
    and body; when [fetch] rejects, it throws what [fetch] threw.  Either
    way the cache keeps the token and the expiry it had. *)
Theorem token_endpoint_failure (id secret : string) (w : World) :
  ~ usable w ->
  (forall res,
     network w (trace w) (tokenRequest id secret) = Some res ->
     res_ok res = false ->
     getAccessToken engine id secret w
     = (Throw (Error ("Failed to obtain access token: "
                      ++ dec (res_status res) ++ " " ++ res_statusText res
                      ++ " - " ++ res_text res)),
        log EvText (log (EvFetch (tokenRequest id secret)) w)))
  /\ (network w (trace w) (tokenRequest id secret) = None ->
      getAccessToken engine id secret w
      = (Throw TypeError, log (EvFetch (tokenRequest id secret)) w))
  /\ (forall res,
        network w (trace w) (tokenRequest id secret) = Some res ->
        res_ok res = false ->
        cachedToken (snd (getAccessToken engine id secret w)) = cachedToken w
        /\ tokenExpiresAt (snd (getAccessToken engine id secret w))
           = tokenExpiresAt w).
Proof.
  intros H. rewrite (getAccessToken_exchange engine id secret w H).
  unfold exchanged. split; [|split].
  - intros res -> ->. reflexivity.
  - intros ->. reflexivity.
  - intros res -> ->. split; reflexivity.
Qed.

(** X4. The cache is one slot, not keyed by the credentials.  After an
    exchange that succeeds with a non-empty token and a timestamp more than
    60 seconds ahead, the next call returns that token without a request,
    whatever credentials it is given. *)
Theorem token_cached_after_exchange (id secret id' secret' : string)
  (w : World) (res : Response) (props : list (string * value))
  (token stamp : string) (ms : Z) :
  ~ usable w ->
  network w (trace w) (tokenRequest id secret) = Some res ->
  res_ok res = true ->
  res_json res = Some (VObj props) ->
  assoc "access_token" props = Some (VStr token) ->
  token <> "" ->
  assoc "expires_at" props = Some (VStr stamp) ->
  iso_parse stamp = Some ms ->
  clock w + 60000 < ms ->
  getAccessToken engine id' secret' (snd (getAccessToken engine id secret w))
  = (Return (VStr token), snd (getAccessToken engine id secret w)).
Proof.
  intros H Hn Hok Hj Ha Htok He Hms Hlt.
  rewrite (getAccessToken_exchange engine id secret w H).
  unfold exchanged. rewrite Hn, Hok, Hj. cbv zeta.
  unfold get_prop. rewrite Ha, He.
  unfold Date_getTime, Date_parse. rewrite Hms. unfold TimeClip.
  pose proof (iso_parse_in_range stamp ms Hms) as Hr.
  apply Z.leb_le in Hr. rewrite Hr. cbn [snd].
  apply getAccessToken_cached. split.
  - simpl. apply negb_true_iff, String.eqb_neq, Htok.
  - exists ms. split; [reflexivity|exact Hlt].
Qed.

(** X7. With a non-empty cursor, a list tool is the cursor call and nothing
    else of its parameters counts: two bags that agree on the cursor give
    the same result and the same world. *)
Theorem listTool_cursor_overrides_filters (path c : string) (p1 p2 : bag)
  (w : World) :
  assoc "cursor" p1 = Some (PString c) ->
  assoc "cursor" p2 = Some (PString c) ->
  c <> "" ->
  listTool engine path p1 w = apiGetWithCursor engine path c None w
  /\ listTool engine path p1 w = listTool engine path p2 w.
Proof.
  intros H1 H2 Hc. unfold listTool, listEndpoint. rewrite H1, H2.
  apply String.eqb_neq in Hc. rewrite Hc. split; reflexivity.
Qed.

(** X8. One call makes at most two requests, the token exchange and the
    resource request, and [getAccessToken] at most one: nothing is retried,
    whatever the answers. *)
Theorem at_most_two_requests (path cursor : string) (params : option bag)
  (perPage : option number) (body : option value) (id secret : string) :
  calls 1 (getAccessToken engine id secret)
  /\ calls 2 (apiGet engine path params)
  /\ calls 2 (apiGetWithCursor engine path cursor perPage)
  /\ calls 2 (apiPost engine path body).
Proof.
  split; [apply calls_getAccessToken|].
  split; [|split].
  - unfold apiGet.
    apply (calls_bind 0 2); [apply calls_getConfig|intros cfg].
    apply (calls_bind 1 1); [apply calls_getAccessToken|intros tok].
    apply (calls_bind 0 1); [apply calls_orTypeError|intros url].
    apply (calls_bind 0 1); [apply calls_orTypeError|intros bearer].
    apply (calls_bind 1 0); [apply calls_fetch|intros res].
    apply calls_received.
  - unfold apiGetWithCursor.
    apply (calls_bind 0 2); [apply calls_getConfig|intros cfg].
    apply (calls_bind 1 1); [apply calls_getAccessToken|intros tok].
    apply (calls_bind 0 1); [apply calls_orTypeError|intros url].
    apply (calls_bind 0 1); [apply calls_orTypeError|intros bearer].
    apply (calls_bind 1 0); [apply calls_fetch|intros res].
    apply calls_received.
  - unfold apiPost.
    apply (calls_bind 0 2); [apply calls_getConfig|intros cfg].
    apply (calls_bind 1 1); [apply calls_getAccessToken|intros tok].
    apply (calls_bind 0 1); [apply calls_orTypeError|intros bearer].
    apply (calls_bind 1 0); [apply calls_fetch|intros res].
    destruct (negb (res_ok res)).
    + apply (calls_bind 0 0); [apply calls_text|intros t].
      apply calls_silent. reflexivity.
    + destruct (res_status res =? 204); [apply calls_silent; reflexivity|].
      apply (calls_bind 0 0); [apply calls_json|intros d].
      apply calls_silent. reflexivity.
Qed.

(** X5. A header that reads [<u>; rel="next"] after a text without [<]
    gives [u], when [u] is not empty and holds no [>]; any white space may
    stand before [rel], and anything may follow. *)
Theorem parseLinkHeader_finds (pre u ws rest : string) :
  sforall (fun x => negb (Ascii.eqb "<" x)) pre = true ->
  u <> "" ->
  sforall (fun x => negb (Ascii.eqb ">" x)) u = true ->
  sforall is_ascii_ws ws = true ->
  parseLinkHeader (Some (pre ++ "<" ++ u ++ ">;" ++ ws ++ REL_NEXT ++ rest))
  = Some u.
Proof.
  intros Hpre Hu Hgt Hws. unfold parseLinkHeader.
  assert (Hne : (pre ++ "<" ++ u ++ ">;" ++ ws ++ REL_NEXT ++ rest =? "")%string
                = false).
  { apply String.eqb_neq. destruct pre; discriminate. }
  rewrite Hne. clear Hne.
  induction pre as [|c pre IH].
  - change ("" ++ "<" ++ u ++ ">;" ++ ws ++ REL_NEXT ++ rest)
      with (String "<" (u ++ ">;" ++ ws ++ REL_NEXT ++ rest)).
    cbn [match_next].
    change (String "<" (u ++ ">;" ++ ws ++ REL_NEXT ++ rest))
      with ("<" ++ u ++ ">;" ++ ws ++ REL_NEXT ++ rest).
    rewrite (next_at_head u ws rest Hu Hgt Hws). reflexivity.
  - cbn [sforall] in Hpre. apply andb_true_iff in Hpre.
    destruct Hpre as [Hc Hpre]. apply negb_true_iff in Hc.
    change (String c pre ++ "<" ++ u ++ ">;" ++ ws ++ REL_NEXT ++ rest)
      with (String c (pre ++ "<" ++ u ++ ">;" ++ ws ++ REL_NEXT ++ rest)).
    cbn [match_next]. unfold next_at at 1. cbn [expect]. rewrite Hc.
    apply IH, Hpre.
Qed.

(** X6. What [parseLinkHeader] returns stands in the header between [<] and
    [>;], followed, after white space at most, by [rel="next"]; it is not
    empty and holds no [>]. *)
Theorem parseLinkHeader_sound (h : option string) (u : string) :
  parseLinkHeader h = Some u ->
  exists header pre ws rest,
    h = Some header
    /\ header = pre ++ "<" ++ u ++ ">;" ++ ws ++ REL_NEXT ++ rest
    /\ skip_ws (ws ++ REL_NEXT ++ rest) = REL_NEXT ++ rest
    /\ u <> ""
    /\ sforall (fun x => negb (Ascii.eqb ">" x)) u = true.
Proof.
  destruct h as [h|]; cbn [parseLinkHeader]; [|discriminate].
  destruct (h =? "")%string; [discriminate|].
  revert u. induction h as [|c s IH]; intros u.
  - cbn [match_next next_at expect]. discriminate.
  - cbn [match_next]. destruct (next_at (String c s)) as [v|] eqn:E.
    + intros [= <-]. unfold next_at in E.
      destruct (expect "<" (String c s)) as [s1|] eqn:E1; [|discriminate].
      destruct (split_at (Ascii.eqb ">") s1) as [[x s2]|] eqn:E2;
        [|discriminate].
      destruct (x =? "")%string eqn:Ex; [discriminate|].
      destruct (expect ";" s2) as [s3|] eqn:E3; [|discriminate].
      destruct (starts_with ("rel=" ++ DQ ++ "next" ++ DQ) (skip_ws s3))
        as [rest|] eqn:E4; [|discriminate].
      injection E as <-.
      apply expect_spec in E1, E3. apply starts_with_spec in E4.
      destruct (split_at_spec _ _ _ _ E2) as [g [Es [Hg Hx]]].
      apply Ascii.eqb_eq in Hg. subst g.
      destruct (skip_ws_suffix s3) as [ws Ews].
      exists (String c s), "", ws, rest.
      split; [reflexivity|].
      split; [rewrite E1, Es, E3, Ews, E4; reflexivity|].
      assert (Hs : s3 = ws ++ REL_NEXT ++ rest).
      { rewrite Ews at 1. rewrite E4. reflexivity. }
      split; [rewrite <- Hs, E4; reflexivity|].
      split; [apply String.eqb_neq, Ex|exact Hx].
    + intros H. destruct (IH u H) as (hd & pre & ws & rest & Eh & Es & Hv).
      injection Eh as <-.
      exists (String c s), (String c pre), ws, rest.
      split; [reflexivity|]. split; [rewrite Es at 1; reflexivity|exact Hv].
Qed.

Lemma percent_decode_other c s :
  Ascii.eqb c "%" = false ->
  percent_decode (String c s) = String c (percent_decode s).
Proof.
  intros H. cbn [percent_decode]. rewrite H.
  destruct s as [|a [|b rest]];
    first [ reflexivity | destruct (hex_val b); reflexivity ].
Qed.

Lemma decode_encode_char c s :
  percent_decode (smap plus_to_space (form_encode_char c ++ s))
  = String c (percent_decode (smap plus_to_space s)).
Proof.
  destruct c as [[] [] [] [] [] [] [] []];
    first [ reflexivity | apply percent_decode_other; reflexivity ].
Qed.

Lemma percent_decode_encode s :
  percent_decode (smap plus_to_space (form_encode s)) = s.
Proof.
  induction s as [|c s IH]; [reflexivity|].
  cbn [form_encode]. rewrite decode_encode_char, IH. reflexivity.
Qed.

Lemma utf8_decode_ascii s : sforall is_ascii s = true -> utf8_decode None s = s.
Proof.
  induction s as [|c s IH]; [reflexivity|].
  cbn [sforall]. intros H. apply andb_true_iff in H. destruct H as [H1 H2].
  cbn [utf8_decode]. unfold utf8_lead.
  unfold is_ascii in H1. apply Z.ltb_lt in H1.
  assert (Hc : (code c <=? 127) = true) by (apply Z.leb_le; lia).
  rewrite Hc. cbn [append]. rewrite (IH H2). reflexivity.
Qed.

Lemma form_decode_encode s :
  sforall is_ascii s = true -> form_decode (form_encode s) = s.
Proof.
  intros H. unfold form_decode. rewrite percent_decode_encode.
  apply utf8_decode_ascii, H.
Qed.

Lemma split_on_none sep s :
  sforall (fun x => negb (Ascii.eqb x sep)) s = true -> split_on sep s = [s].
Proof.
  induction s as [|c s IH]; [reflexivity|].
  cbn [sforall]. intros H. apply andb_true_iff in H. destruct H as [H1 H2].
  apply negb_true_iff in H1. cbn [split_on]. rewrite (IH H2), H1. reflexivity.
Qed.

Lemma cursor_query_parses c :
  sforall is_ascii c = true ->
  urlencoded_parse ("cursor=" ++ form_encode c) = [("cursor", c)].
Proof.
  intros H. unfold urlencoded_parse.
  rewrite (split_on_none "&" ("cursor=" ++ form_encode c)).
  - cbn [flat_map].
    change (("cursor=" ++ form_encode c =? "")%string) with false.
    cbv beta iota.
    change (split_at (Ascii.eqb "=") ("cursor=" ++ form_encode c))
      with (Some ("cursor", form_encode c)).
    cbv beta iota.
    rewrite (form_decode_encode c H). reflexivity.
  - rewrite sforall_app. apply andb_true_iff. split; [reflexivity|].
    apply sforall_weaken with (2 := form_encode_safe c).
    intros x Hx. apply negb_true_iff in Hx. apply negb_true_iff.
    unfold is_delimiter in Hx. apply orb_false_iff in Hx.
    destruct Hx as [Hx _]. apply orb_false_iff in Hx. destruct Hx as [Hx _].
    apply orb_false_iff in Hx. destruct Hx as [_ Hx].
    rewrite Ascii.eqb_sym. exact Hx.
Qed.

(** X9. The cursor comes back from the query string of the request of
    [apiGetWithCursor]: for an ASCII cursor and a path without query,
    parsing that query string as a server does gives the one pair
    [cursor], with the cursor as it was passed. *)
Theorem cursor_round_trip (path cursor : string) (perPage : option number) :
  plain_path path = true ->
  sforall is_ascii cursor = true ->
  emits (fun r => req_url r = TOKEN_URL
                  \/ option_map urlencoded_parse (href_query (req_url r))
                     = Some [("cursor", cursor)])
    (apiGetWithCursor engine path cursor perPage).
Proof.
  intros Hp Ha.
  eapply emits_weaken; [|apply emits_apiGetWithCursor].
  intros r [H|[u [Hu Hr]]]; [left; exact H|right].
  rewrite (URL_parse_plain engine path Hp) in Hu. injection Hu as <-.
  rewrite Hr, (cursor_url engine path cursor). cbn [option_map].
  rewrite (cursor_query_parses cursor Ha). reflexivity.
Qed.

(** X10. Nothing of a response is kept: with a usable token and a network
    that answers the request alike whatever happened before, two [apiGet]
    calls in a row fetch twice and return the same envelope twice. *)
Theorem no_response_cache (path : string) (params : option bag) (w : World)
  (cfg : ClientConfig) (url bearer : string) (res : Response) (d : value) :
  config w = Some cfg ->
  usable w ->
  ToString (cachedToken w) = Some bearer ->
  buildUrl engine path params = Some url ->
  (forall t, network w t (getRequest url bearer) = Some res) ->
  res_ok res = true ->
  res_json res = Some d ->
  parseLinkHeader (res_link res) = None ->
  bind (apiGet engine path params)
    (fun first => bind (apiGet engine path params)
                    (fun second => ret (first, second))) w
  = (Return ({| data := d; nextCursor := None |},
             {| data := d; nextCursor := None |}),
     log EvJson
       (log (EvFetch (getRequest url bearer))
          (log EvJson (log (EvFetch (getRequest url bearer)) w)))).
Proof.
  intros Hc Hu Hb Hurl Hn Hok Hj Hl.
  assert (Hrun : forall w0,
             config w0 = Some cfg -> usable w0 ->
             cachedToken w0 = cachedToken w -> network w0 = network w ->
             apiGet engine path params w0
             = (Return {| data := d; nextCursor := None |},
                log EvJson (log (EvFetch (getRequest url bearer)) w0))).
  { intros w0 Hc0 Hu0 Ht0 Hn0.
    rewrite (apiGet_run engine path params w0 cfg (cachedToken w0) w0 url
               bearer Hc0
               (getAccessToken_cached engine _ _ w0 Hu0) Hurl
               ltac:(rewrite Ht0; exact Hb)).
    apply (received_last engine _ res d w0); try assumption.
    rewrite Hn0. apply Hn. }
  unfold bind at 1. rewrite (Hrun w Hc Hu eq_refl eq_refl).
  unfold bind at 1. rewrite Hrun; [reflexivity|exact Hc|exact Hu| |];
    reflexivity.
Qed.

Lemma includes_join sep x l : In x l -> includes (join sep l) x.
Proof.
  induction l as [|y l IH]; [intros []|].
  intros [->|H].
  - destruct l as [|z l]; cbn [join].
    + exists "", "". rewrite append_nil_r. reflexivity.
    + exists "", (sep ++ join sep (z :: l)). reflexivity.
  - destruct l as [|z l]; [destruct H|]. rewrite join_cons.
    apply includes_app_r, includes_app_r, IH, H.
Qed.

Lemma includes_wrap a b s x : includes s x -> includes (a ++ s ++ b) x.
Proof.
  intros [pre [post E]]. exists (a ++ pre), (post ++ b).
  rewrite E, !append_assoc. reflexivity.
Qed.

Lemma formatResult_text d c :
  c <> "" ->
  exists parts,
    formatResult {| data := d; nextCursor := Some c |}
    = [{| content_type := "text";
          content_text :=
            Some (pretty_block "{" "}" ""
                    (parts ++ [json_quote "next_cursor" ++ ": " ++ json_quote c;
                               json_quote "_pagination_note" ++ ": "
                               ++ json_quote PAGINATION_NOTE])) |}]
    /\ (List.length parts <= 1)%nat.
Proof.
  intros Hc. unfold formatResult, resultOf. cbn [nextCursor data].
  apply String.eqb_neq in Hc. rewrite Hc. cbn [negb JSON_pretty].
  match goal with
  | |- context [JSON_pretty ?i d] => destruct (JSON_pretty i d) as [t|]
  end.
  - exists [json_quote "data" ++ ": " ++ t]. split; [reflexivity|simpl; lia].
  - exists []. split; [reflexivity|simpl; lia].
Qed.

(** X11. [formatResult] always gives one text element.  It shows the cursor
    of the next page, as a JSON string under [next_cursor], when the cursor
    is a non-empty string; an empty cursor is treated as none, and the text
    is then the one of a last page. *)
Theorem formatResult_cursor (d : value) :
  (forall c, exists t,
     formatResult {| data := d; nextCursor := c |}
     = [{| content_type := "text"; content_text := Some t |}])
  /\ formatResult {| data := d; nextCursor := Some "" |}
     = formatResult {| data := d; nextCursor := None |}
  /\ (forall c, c <> "" ->
      exists t,
        formatResult {| data := d; nextCursor := Some c |}
        = [{| content_type := "text"; content_text := Some t |}]
        /\ includes t (json_quote "next_cursor" ++ ": " ++ json_quote c)
        /\ includes t (json_quote "_pagination_note" ++ ": "
                       ++ json_quote PAGINATION_NOTE)).
Proof.
  split; [intros c; eexists; reflexivity|].
  split; [reflexivity|].
  intros c Hc.
  destruct (formatResult_text d c Hc) as [parts [E Hin]].
  eexists. split; [exact E|].
  unfold pretty_block.
  match goal with
  | |- context [match ?l with [] => _ | _ :: _ => _ end] =>
      destruct l as [|p l'] eqn:El
  end.
  { destruct parts; discriminate El. }
  rewrite <- El.
  split; apply includes_app_r, includes_app_r, includes_wrap,
    includes_join, in_or_app; right; simpl; auto.
Qed.

Lemma uint_literal d :
  sforall is_literal_char (NilEmpty.string_of_uint d) = true.
Proof. induction d; simpl; auto. Qed.

(** The decimal spelling of an integer is made of digits and [-]. *)
Lemma dec_literal z : sforall is_literal_char (dec z) = true.
Proof.
  unfold dec, NilZero.string_of_int, NilZero.string_of_uint.
  destruct (Z.to_int z) as [d|d].
  - destruct d; try reflexivity; apply (uint_literal _).
  - destruct d; try reflexivity;
      cbn [sforall]; apply andb_true_iff; split; try reflexivity;
      apply (uint_literal _).
Qed.

Lemma buildUrl_bare path :
  sforall is_literal_char path = true ->
  buildUrl engine path None = Some (BASE_URL ++ path).
Proof.
  intros H. rewrite buildUrl_fold.
  rewrite (URL_parse_plain engine path (literal_plain path H)).
  unfold URL_toString.
  change (url_query (resource engine path)) with (@None string).
  change (url_fragment (resource engine path)) with (@None string).
  rewrite (literal_base engine path H), !append_nil_r. reflexivity.
Qed.

(** The requests of [apiGet] when the client is configured: the token
    exchange with the configured credentials, then a GET of the URL of
    [buildUrl]. *)
Lemma apiGet_requests path params cfg w :
  config w = Some cfg ->
  exists new,
    trace (snd (apiGet engine path params w)) = (trace w ++ new)%list
    /\ Forall (fun r => r = tokenRequest (clientId cfg) (clientSecret cfg)
                        \/ exists url bearer,
                             buildUrl engine path params = Some url
                             /\ r = getRequest url bearer)
         (requests new).
Proof.
  intros Hc.
  assert (E : apiGet engine path params w
              = bind (getAccessToken engine (clientId cfg) (clientSecret cfg))
                  (fun token =>
                     bind (orTypeError (buildUrl engine path params))
                       (fun url =>
                          bind (orTypeError (ToString token))
                            (fun bearer =>
                               bind (fetch (getRequest url bearer))
                                 (received engine)))) w).
  { unfold apiGet. unfold bind at 1. rewrite (getConfig_run w cfg Hc).
    reflexivity. }
  rewrite E. revert w Hc E. intros w _ _. revert w.
  change (emits (fun r => r = tokenRequest (clientId cfg) (clientSecret cfg)
                          \/ exists url bearer,
                               buildUrl engine path params = Some url
                               /\ r = getRequest url bearer)
            (bind (getAccessToken engine (clientId cfg) (clientSecret cfg))
               (fun token =>
                  bind (orTypeError (buildUrl engine path params))
                    (fun url =>
                       bind (orTypeError (ToString token))
                         (fun bearer =>
                            bind (fetch (getRequest url bearer))
                              (received engine)))))).
  apply emits_bind.
  { eapply emits_weaken; [|apply emits_getAccessToken]. intros r ->. auto. }
  intros tok. apply emits_bind_some. intros url Hu.
  apply emits_bind_some. intros bearer Hb.
  apply emits_bind; [|intros res; apply emits_received].
  apply emits_fetch. right. exists url, bearer. auto.
Qed.

(** X12. The tools that get one record by its number, a safe integer, make
    one GET once the configuration and the token are there: of
    [BASE_URL + prefix + number], the number spelled in decimal, with no
    query string.  The prefix is made of letters, digits, [_], [-] and [/],
    as [/applications/], [/candidates/] and [/jobs/] are. *)
Theorem getHandler_url (prefix : string) (z : Z) (w w1 : World)
  (cfg : ClientConfig) (tok : value) (bearer : string) :
  Z.abs z <= MAX_SAFE_INTEGER ->
  sforall is_literal_char prefix = true ->
  config w = Some cfg ->
  getAccessToken engine (clientId cfg) (clientSecret cfg) w = (Return tok, w1) ->
  ToString tok = Some bearer ->
  getHandler engine prefix (Num z) w
  = bind (bind (fetch (getRequest (BASE_URL ++ prefix ++ dec z) bearer))
            (received engine))
      (fun response => ret (formatResult response)) w1
  /\ requests (trace (snd (getHandler engine prefix (Num z) w)))
     = (requests (trace w1)
        ++ [getRequest (BASE_URL ++ prefix ++ dec z) bearer])%list
  /\ href_query (BASE_URL ++ prefix ++ dec z) = None
  /\ sforall is_literal_char "/applications/" = true
  /\ sforall is_literal_char "/candidates/" = true
  /\ sforall is_literal_char "/jobs/" = true.
Proof.
  intros _ Hp Hc Ht Hb.
  assert (Hpath : sforall is_literal_char (prefix ++ dec z) = true).
  { rewrite sforall_app, Hp, dec_literal. reflexivity. }
  destruct (filter_call engine (prefix ++ dec z) None w cfg tok w1 bearer
              (BASE_URL ++ prefix ++ dec z)
              (buildUrl_bare (prefix ++ dec z) Hpath) Hc Ht Hb)
    as [Hrun Hreq].
  unfold getHandler. cbn [Number_toString].
  split.
  { unfold bind at 1. rewrite Hrun. reflexivity. }
  split.
  { rewrite formatted_trace. exact Hreq. }
  split; [|repeat split; reflexivity].
  apply href_query_none. unfold plain_path. rewrite sforall_app.
  apply andb_true_iff. split; [reflexivity|].
  apply literal_plain, Hpath.
Qed.

(** X13. From a bag with distinct keys whose values are all [undefined] or
    empty, [buildUrl] makes the URL it makes without a bag: no parameter
    and no question mark; for a path of letters, digits, [_], [-] and [/],
    the base URL followed by the path. *)
Theorem buildUrl_drops_all (path : string) (b : bag) :
  plain_path path = true ->
  NoDup (map fst b) ->
  forallb (fun kv => negb (is_sent (snd kv))) b = true ->
  buildUrl engine path (Some b) = buildUrl engine path None
  /\ (exists url,
        buildUrl engine path (Some b) = Some url /\ href_query url = None)
  /\ (sforall is_literal_char path = true ->
      buildUrl engine path (Some b) = Some (BASE_URL ++ path)).
Proof.
  intros Hp Hnd Hall.
  assert (Hs : sent b = []).
  { unfold sent. induction b as [|kv b IH]; [reflexivity|].
    cbn [forallb] in Hall. apply andb_true_iff in Hall.
    destruct Hall as [H1 H2]. apply negb_true_iff in H1.
    cbn [filter]. rewrite H1. inversion Hnd; subst. apply IH; assumption. }
  assert (Hb : buildUrl engine path (Some b)
               = Some (url_base (resource engine path))).
  { rewrite (buildUrl_plain engine path b Hp Hnd), Hs, append_nil_r.
    reflexivity. }
  split.
  { rewrite Hb, buildUrl_fold, (URL_parse_plain engine path Hp).
    unfold URL_toString.
    change (url_query (resource engine path)) with (@None string).
    change (url_fragment (resource engine path)) with (@None string).
    rewrite !append_nil_r. reflexivity. }
  split.
  { exists (url_base (resource engine path)). split; [exact Hb|].
    apply href_query_none, plain_base. }
  intros Hl. rewrite Hb, (literal_base engine path Hl). reflexivity.
Qed.

(** X14. After [configure(id, secret)], whatever was configured before, the
    token exchange of a call carries [Basic base64(id:secret)], and the
    other request is a GET of the URL of [buildUrl]. *)
Theorem configured_credentials_are_sent (id secret path : string)
  (params : option bag) (w : World) :
  exists new,
    trace (snd (bind (configure id secret)
                  (fun _ => apiGet engine path params) w))
    = (trace w ++ new)%list
    /\ Forall (fun r =>
                 (r = tokenRequest id secret
                  /\ assoc "Authorization" (req_headers r)
                     = Some ("Basic " ++ base64 (id ++ ":" ++ secret)))
                 \/ exists url bearer,
                      buildUrl engine path params = Some url
                      /\ r = getRequest url bearer)
         (requests new).
Proof.
  unfold bind at 1, configure, write.
  destruct (apiGet_requests path params (mkConfig id secret)
              (set_config (Some (mkConfig id secret)) w) eq_refl)
    as [new [E F]].
  exists new. split; [exact E|].
  revert F. apply Forall_impl. intros r [->|H]; [left|right; exact H].
  split; reflexivity.
Qed.


(** X17. Building the URL never stops a call: whatever the path and the
    bag, once the token is there [apiGet] reaches [fetch]. *)
Theorem apiGet_reaches_fetch (path : string) (params : option bag)
  (w w1 : World) (cfg : ClientConfig) (tok : value) (bearer : string) :
  config w = Some cfg ->
  getAccessToken engine (clientId cfg) (clientSecret cfg) w = (Return tok, w1) ->
  ToString tok = Some bearer ->
  exists url,
    buildUrl engine path params = Some url
    /\ apiGet engine path params w
       = bind (fetch (getRequest url bearer)) (received engine) w1
    /\ requests (trace (snd (apiGet engine path params w)))
       = (requests (trace w1) ++ [getRequest url bearer])%list.
Proof.
  intros Hc Ht Hb. destruct (buildUrl_total engine path params) as [url Hu].
  exists url. split; [exact Hu|].
  rewrite (apiGet_run engine path params w cfg tok w1 url bearer Hc Ht Hu Hb).
  split; [reflexivity|].
  unfold bind, fetch.
  destruct (network w1 (trace w1) (getRequest url bearer)) as [res|].
  - destruct (calls_received res (log (EvFetch (getRequest url bearer)) w1))
      as [new [E Hlen]].
    destruct (received engine res (log (EvFetch (getRequest url bearer)) w1))
      as [o w2]. cbn [snd] in *.
    rewrite E. cbn [log trace]. rewrite !requests_app.
    destruct (requests new); [|simpl in Hlen; lia].
    cbn [requests]. rewrite app_nil_r. reflexivity.
  - cbn [snd log trace]. rewrite requests_app. reflexivity.
Qed.

(** X16. From the link header to the text of a list tool: called without
    cursor, with a usable token, on a success response whose [rel="next"]
    URL carries a non-empty cursor, the tool answers one text that shows the
    cursor under [next_cursor]. *)
Theorem listHandler_surfaces_cursor (path : string) (params : bag) (w : World)
  (cfg : ClientConfig) (url bearer next c : string) (res : Response)
  (d : value) (u : URL) :
  config w = Some cfg ->
  usable w ->
  ToString (cachedToken w) = Some bearer ->
  assoc "cursor" params = None ->
  buildUrl engine path (Some (remove_key "cursor" params)) = Some url ->
  network w (trace w) (getRequest url bearer) = Some res ->
  res_ok res = true ->
  res_json res = Some d ->
  parseLinkHeader (res_link res) = Some next ->
  URL_parse engine next = Some u ->
  params_get "cursor" (searchParams u) = Some c ->
  c <> "" ->
  exists t,
    fst (listHandler engine path params w)
    = Return [{| content_type := "text"; content_text := Some t |}]
    /\ includes t (json_quote "next_cursor" ++ ": " ++ json_quote c).
Proof.
  intros Hc Hu Hb Hcur Hurl Hn Hok Hj Hl Hp Hget Hne.
  destruct (formatResult_text d c Hne) as [parts [E _]].
  eexists. split.
  - unfold listHandler, listTool, listEndpoint. rewrite Hcur.
    cbv beta iota zeta. unfold bind at 1.
    rewrite (apiGet_run engine path (@Some bag (remove_key "cursor" params))
               w cfg
               (cachedToken w) w url bearer Hc
               (getAccessToken_cached engine _ _ w Hu) Hurl Hb).
    rewrite (received_next engine _ res d next u w Hn Hok Hj Hl Hp).
    rewrite Hget. unfold ret. cbn [fst]. rewrite E. reflexivity.
  - unfold pretty_block.
    match goal with
    | |- context [match ?l with [] => _ | _ :: _ => _ end] =>
        destruct l as [|p l'] eqn:El
    end.
    { destruct parts; discriminate El. }
    rewrite <- El.
    apply includes_app_r, includes_app_r, includes_wrap, includes_join,
      in_or_app. right. simpl. auto.
Qed.

End More.

(** ** The further properties at work *)

Lemma unconfigured_fails_fast_witness :
  apiGet strict_engine "/jobs" None (start 0 (always good_token))
  = (Throw (Error "Greenhouse client not configured. Set GREENHOUSE_CLIENT_ID and GREENHOUSE_CLIENT_SECRET."),
     start 0 (always good_token)).
Proof.
  exact (proj1 (unconfigured_fails_fast strict_engine
                  (start 0 (always good_token)) "/jobs" "" None None None
                  eq_refl)).
Defined.

Lemma token_failure_propagates_witness :
  fst (apiGet strict_engine "/jobs" None
         (world_with VNull (Num 0) 0 (always unauthorized)))
  = Throw (Error "Failed to obtain access token: 401 Unauthorized - denied")
  /\ requests
       (trace (snd (apiGet strict_engine "/jobs" None
                      (world_with VNull (Num 0) 0 (always unauthorized)))))
     = [tokenRequest "id" "secret"].
Proof.
  destruct (token_failure_propagates strict_engine
              (world_with VNull (Num 0) 0 (always unauthorized))
              (log EvText
                 (log (EvFetch (tokenRequest "id" "secret"))
                    (world_with VNull (Num 0) 0 (always unauthorized))))
              (mkConfig "id" "secret")
              (Error "Failed to obtain access token: 401 Unauthorized - denied")
              "/jobs" "" None None None eq_refl eq_refl) as [H _].
  rewrite H. split; reflexivity.
Defined.

Lemma token_endpoint_failure_witness :
  cachedToken
    (snd (getAccessToken strict_engine "id" "secret"
            (cached_world 40000 (always unauthorized))))
  = VStr "tok"
  /\ tokenExpiresAt
       (snd (getAccessToken strict_engine "id" "secret"
               (cached_world 40000 (always unauthorized))))
     = Num 100000.
Proof.
  assert (Hstale : ~ usable (cached_world 40000 (always unauthorized))).
  { intros [_ [e [He Hlt]]]. injection He as <-. simpl in Hlt. lia. }
  destruct (token_endpoint_failure strict_engine "id" "secret"
              (cached_world 40000 (always unauthorized)) Hstale)
    as (_ & _ & H).
  exact (H unauthorized eq_refl eq_refl).
Defined.

Lemma token_cached_after_exchange_witness :
  getAccessToken strict_engine "other" "pair"
    (snd (getAccessToken strict_engine "id" "secret"
            (start 0 (always good_token))))
  = (Return (VStr "fresh"),
     snd (getAccessToken strict_engine "id" "secret"
            (start 0 (always good_token)))).
Proof.
  apply (token_cached_after_exchange strict_engine "id" "secret" "other"
           "pair" (start 0 (always good_token)) good_token
           [("token_type", VStr "Bearer"); ("access_token", VStr "fresh");
            ("expires_at", VStr "2030-01-01T00:00:00.000Z")]
           "fresh" "2030-01-01T00:00:00.000Z" 1893456000000
           (start_not_usable 0 (always good_token))
           eq_refl eq_refl eq_refl eq_refl ltac:(discriminate) eq_refl
           eq_refl ltac:(simpl; lia)).
Defined.

Lemma parseLinkHeader_finds_witness :
  parseLinkHeader
    (Some ("total=12, " ++ "<" ++ "https://host/v3/jobs?cursor=abc123" ++ ">;"
           ++ "  " ++ REL_NEXT ++ "; title=next"))
  = Some "https://host/v3/jobs?cursor=abc123".
Proof.
  apply (parseLinkHeader_finds "total=12, "
           "https://host/v3/jobs?cursor=abc123" "  " "; title=next"
           eq_refl ltac:(discriminate) eq_refl eq_refl).
Defined.

Lemma parseLinkHeader_sound_witness :
  exists header pre ws rest,
    res_link page_with_next = Some header
    /\ header = pre ++ "<" ++ "https://host/v3/jobs?cursor=abc123" ++ ">;"
                ++ ws ++ REL_NEXT ++ rest
    /\ skip_ws (ws ++ REL_NEXT ++ rest) = REL_NEXT ++ rest
    /\ "https://host/v3/jobs?cursor=abc123" <> ""
    /\ sforall (fun x => negb (Ascii.eqb ">" x))
         "https://host/v3/jobs?cursor=abc123" = true.
Proof.
  exact (parseLinkHeader_sound (res_link page_with_next)
           "https://host/v3/jobs?cursor=abc123" eq_refl).
Defined.

Lemma listTool_cursor_overrides_filters_witness :
  listTool strict_engine "/jobs"
    [("status", PString "open"); ("cursor", PString "abc")]
    (cached_world 0 (always page_with_next))
  = listTool strict_engine "/jobs"
      [("cursor", PString "abc"); ("per_page", PNumber (Num 5))]
      (cached_world 0 (always page_with_next)).
Proof.
  exact (proj2 (listTool_cursor_overrides_filters strict_engine "/jobs" "abc"
                  [("status", PString "open"); ("cursor", PString "abc")]
                  [("cursor", PString "abc"); ("per_page", PNumber (Num 5))]
                  (cached_world 0 (always page_with_next))
                  eq_refl eq_refl ltac:(discriminate))).
Defined.

Lemma cursor_round_trip_witness :
  emits (fun r => req_url r = TOKEN_URL
                  \/ option_map urlencoded_parse (href_query (req_url r))
                     = Some [("cursor", "a b&c=d")])
    (apiGetWithCursor strict_engine "/jobs" "a b&c=d" None).
Proof.
  exact (cursor_round_trip strict_engine "/jobs" "a b&c=d" None
           eq_refl eq_refl).
Defined.

Lemma cached_world_usable net : usable (cached_world 0 net).
Proof.
  split; [reflexivity|]. exists 100000. split; [reflexivity|simpl; lia].
Qed.

Lemma no_response_cache_witness :
  requests
    (trace
       (snd (bind (apiGet strict_engine "/jobs" None)
               (fun first =>
                  bind (apiGet strict_engine "/jobs" None)
                    (fun second => ret (first, second)))
               (cached_world 0 (always (json_response None (VArr [])))))))
  = [getRequest "https://harvest.greenhouse.io/v3/jobs" "tok";
     getRequest "https://harvest.greenhouse.io/v3/jobs" "tok"].
Proof.
  rewrite (no_response_cache strict_engine "/jobs" None
             (cached_world 0 (always (json_response None (VArr []))))
             (mkConfig "id" "secret")
             "https://harvest.greenhouse.io/v3/jobs" "tok"
             (json_response None (VArr [])) (VArr [])
             eq_refl (cached_world_usable _) eq_refl eq_refl
             (fun _ => eq_refl) eq_refl eq_refl eq_refl).
  reflexivity.
Defined.

Lemma formatResult_cursor_witness :
  exists t,
    formatResult {| data := VArr []; nextCursor := Some "abc123" |}
    = [{| content_type := "text"; content_text := Some t |}]
    /\ includes t (json_quote "next_cursor" ++ ": " ++ json_quote "abc123").
Proof.
  destruct (formatResult_cursor (VArr [])) as (_ & _ & H).
  destruct (H "abc123" ltac:(discriminate)) as [t (E & I & _)].
  exists t. split; [exact E|exact I].
Defined.

Lemma getHandler_url_witness :
  requests
    (trace (snd (getHandler strict_engine "/jobs/" (Num 42)
                   (cached_world 0 (always not_found)))))
  = [getRequest "https://harvest.greenhouse.io/v3/jobs/42" "tok"].
Proof.
  exact (proj1 (proj2 (getHandler_url strict_engine "/jobs/" 42
                         (cached_world 0 (always not_found))
                         (cached_world 0 (always not_found))
                         (mkConfig "id" "secret") (VStr "tok") "tok"
                         ltac:(unfold MAX_SAFE_INTEGER; simpl; lia)
                         eq_refl eq_refl eq_refl eq_refl))).
Defined.

Lemma empty_bag_keys :
  NoDup (map fst [("a", PUndefined); ("b", PString "")]).
Proof.
  repeat constructor; simpl; intuition discriminate.
Qed.

Lemma buildUrl_drops_all_witness :
  buildUrl strict_engine "/jobs"
    (Some [("a", PUndefined); ("b", PString "")])
  = Some "https://harvest.greenhouse.io/v3/jobs".
Proof.
  exact (proj2 (proj2 (buildUrl_drops_all strict_engine "/jobs"
                         [("a", PUndefined); ("b", PString "")]
                         eq_refl empty_bag_keys eq_refl)) eq_refl).
Defined.


Lemma apiGet_reaches_fetch_witness :
  exists url,
    buildUrl strict_engine "/jobs?x=1#y" None = Some url
    /\ requests
         (trace (snd (apiGet strict_engine "/jobs?x=1#y" None
                        (cached_world 0 (always not_found)))))
       = [getRequest url "tok"].
Proof.
  destruct (apiGet_reaches_fetch strict_engine "/jobs?x=1#y" None
              (cached_world 0 (always not_found))
              (cached_world 0 (always not_found))
              (mkConfig "id" "secret") (VStr "tok") "tok"
              eq_refl eq_refl eq_refl) as [url (Hu & _ & Hr)].
  exists url. split; [exact Hu|exact Hr].
Defined.

Lemma listHandler_surfaces_cursor_witness :
  exists t,
    fst (listHandler strict_engine "/jobs" [("status", PString "open")]
           (cached_world 0 (always page_with_next)))
    = Return [{| content_type := "text"; content_text := Some t |}]
    /\ includes t (json_quote "next_cursor" ++ ": " ++ json_quote "abc123").
Proof.
  exact (listHandler_surfaces_cursor strict_engine "/jobs"
           [("status", PString "open")]
           (cached_world 0 (always page_with_next))
           (mkConfig "id" "secret")
           "https://harvest.greenhouse.io/v3/jobs?status=open" "tok"
           "https://host/v3/jobs?cursor=abc123" "abc123" page_with_next
           (VArr [VObj [("id", VNum (Num 1))]])
           {| url_base := "https://host/v3/jobs";
              url_query := Some "cursor=abc123";
              url_fragment := None;
              searchParams := [("cursor", "abc123")] |}
           eq_refl (cached_world_usable _) eq_refl eq_refl eq_refl eq_refl
           eq_refl eq_refl eq_refl eq_refl eq_refl ltac:(discriminate)).
Defined.
